(** * Energy Management Calendar: a shallow embedding of [src/app/page.tsx]

    The page component keeps three pieces of state (the visible month, the
    event list and the draft of the "Schedule New Activity" form) and derives
    four views from them: the month grid, the month summary, the
    recommendation list and the filtered events.  This file embeds the
    derived views and the two form handlers as Rocq functions and proves the
    properties the specification states about them.

    Conventions.
    - A JavaScript string is a [string]; each [ascii] stands for one code
      unit below 256.
    - JavaScript numbers are kept behind the interface [JSNumber]: the
      aggregation and the form controller are written once, over any
      implementation of the arithmetic operators the page uses.  The
      instance [double] is the arithmetic of the code, IEEE 754 binary64:
      the exact result of each operation, rounded to the nearest double.
      The instance [number] is the arithmetic before rounding, on exact
      rationals extended with NaN and the two infinities; the two agree
      wherever nothing is rounded, as on the integers of the seed records.
    - [Date.now()] is an input of the submit handler.
    - The calendar functions imported from date-fns are not part of the
      repository; they are modelled on civil dates (year, month, day). *)

From Stdlib Require Import List String Ascii Bool Arith ZArith QArith Qround Qpower.
From Stdlib Require Import Lia Lqa DecimalString DecimalN DecimalPos.
Import ListNotations.

Close Scope Q_scope.
Local Open Scope string_scope.
Local Open Scope list_scope.

(** ** JavaScript strings *)

Module JsString.

(** Code units that [String.prototype.trim] strips (those below 256):
    TAB, LF, VT, FF, CR, SPACE and NBSP. *)
Definition isWhiteSpace (c : ascii) : bool :=
  let n := nat_of_ascii c in
  (((9 <=? n) && (n <=? 13)) || (n =? 32) || (n =? 160))%nat.

Definition isDigit (c : ascii) : bool :=
  let n := nat_of_ascii c in ((48 <=? n) && (n <=? 57))%nat.

Definition isEmpty (s : string) : bool :=
  match s with EmptyString => true | String _ _ => false end.

Fixpoint trimStart (s : string) : string :=
  match s with
  | EmptyString => EmptyString
  | String c r => if isWhiteSpace c then trimStart r else s
  end.

Fixpoint trimEnd (s : string) : string :=
  match s with
  | EmptyString => EmptyString
  | String c r =>
      let r' := trimEnd r in
      if isWhiteSpace c && isEmpty r' then EmptyString else String c r'
  end.

(** [s.trim()] *)
Definition trim (s : string) : string := trimEnd (trimStart s).

(** [s.startsWith(p)] *)
Definition startsWith (s p : string) : bool := String.prefix p s.

(** [s.replace(/[^0-9.]/g, "")]: every code unit that is neither a digit
    nor a full stop is deleted. *)
Fixpoint replaceNonNumeric (s : string) : string :=
  match s with
  | EmptyString => EmptyString
  | String c r =>
      if isDigit c || Ascii.eqb c "."
      then String c (replaceNonNumeric r)
      else replaceNonNumeric r
  end.

(** [parts.join(sep)] *)
Definition join (sep : string) (parts : list string) : string :=
  String.concat sep parts.

(** [Math.abs(n).toString()] for an integer [n]. *)
Definition decimal (n : Z) : string :=
  NilZero.string_of_uint (N.to_uint (Z.abs_N n)).

(** [n.toString()] for an integer [n], as a template literal prints it. *)
Definition ofInteger (n : Z) : string :=
  if (n <? 0)%Z then String "-" (decimal n) else decimal n.

(** Spec-side vocabulary. *)
Fixpoint allChars (p : ascii -> bool) (s : string) : bool :=
  match s with
  | EmptyString => true
  | String c r => p c && allChars p r
  end.

Fixpoint countChar (a : ascii) (s : string) : nat :=
  match s with
  | EmptyString => 0
  | String c r => (if Ascii.eqb c a then 1 else 0) + countChar a r
  end.

Definition whitespaceOnly (s : string) : bool := allChars isWhiteSpace s.

End JsString.

(** ** Calendar dates

    The page imports its calendar arithmetic from date-fns.  A [Date] is a
    civil date of the proleptic Gregorian calendar in local time; months
    count from 1.  The time of day is left out: the functions below only
    ever produce the first or the last instant of a day, and the grid
    compares and enumerates whole days. *)

Module DateFns.

Local Open Scope Z_scope.

Record Date : Type := mkDate { year : Z; month : Z; day : Z }.

Definition isLeapYear (y : Z) : bool :=
  (y mod 4 =? 0) && (negb (y mod 100 =? 0) || (y mod 400 =? 0)).

Definition getDaysInMonth (y m : Z) : Z :=
  if m =? 2 then (if isLeapYear y then 29 else 28)
  else if (m =? 4) || (m =? 6) || (m =? 9) || (m =? 11) then 30
  else 31.

Definition Date_eq_dec (a b : Date) : {a = b} + {a <> b}.
Proof. decide equality; apply Z.eq_dec. Defined.

(** The dates a [Date] object can hold. *)
Definition valid (d : Date) : Prop :=
  1 <= month d <= 12 /\ 1 <= day d <= getDaysInMonth (year d) (month d).

Definition yearLength (y : Z) : Z := if isLeapYear y then 366 else 365.

(** Days from 0001-01-01 to the first of January of year [y]. *)
Definition daysBeforeYear (y : Z) : Z :=
  365 * (y - 1) + (y - 1) / 4 - (y - 1) / 100 + (y - 1) / 400.

(** Days from the first of January to the first of month [m]. *)
Definition daysBeforeMonth (y m : Z) : Z :=
  let leap := if isLeapYear y then 1 else 0 in
  if m <=? 1 then 0
  else if m =? 2 then 31
  else if m =? 3 then 59 + leap
  else if m =? 4 then 90 + leap
  else if m =? 5 then 120 + leap
  else if m =? 6 then 151 + leap
  else if m =? 7 then 181 + leap
  else if m =? 8 then 212 + leap
  else if m =? 9 then 243 + leap
  else if m =? 10 then 273 + leap
  else if m =? 11 then 304 + leap
  else 334 + leap.

(** The index of a day on the time line: 0001-01-01 is day 0. *)
Definition dayNumber (d : Date) : Z :=
  daysBeforeYear (year d) + daysBeforeMonth (year d) (month d) + (day d - 1).

(** [date.getDay()]: 0 is Sunday; 0001-01-01 was a Monday. *)
Definition getDay (d : Date) : Z := (dayNumber d + 1) mod 7.

(** [date.setDate(date.getDate() + 1)] and [date.setDate(date.getDate() - 1)]:
    the day-of-month overflow is carried into the month and the year. *)
Definition nextDay (d : Date) : Date :=
  if day d <? getDaysInMonth (year d) (month d)
  then mkDate (year d) (month d) (day d + 1)
  else if month d <? 12 then mkDate (year d) (month d + 1) 1
  else mkDate (year d + 1) 1 1.

Definition prevDay (d : Date) : Date :=
  if 1 <? day d then mkDate (year d) (month d) (day d - 1)
  else if 1 <? month d
       then mkDate (year d) (month d - 1) (getDaysInMonth (year d) (month d - 1))
  else mkDate (year d - 1) 12 31.

(** [date.setDate(date.getDate() + n)] for any integer [n]. *)
Definition addDays (d : Date) (n : Z) : Date :=
  if 0 <=? n then Nat.iter (Z.to_nat n) nextDay d
  else Nat.iter (Z.to_nat (- n)) prevDay d.

(** Modelled from the spec: date-fns [startOfMonth] and [endOfMonth],
    the "month-start/end computation" of the calendar collaborator. *)
Definition startOfMonth (d : Date) : Date := mkDate (year d) (month d) 1.

Definition endOfMonth (d : Date) : Date :=
  mkDate (year d) (month d) (getDaysInMonth (year d) (month d)).

(** Modelled from the spec: date-fns [startOfWeek] and [endOfWeek], the
    "week-start/end computation with configurable week-start day". *)
Definition startOfWeek (d : Date) (weekStartsOn : Z) : Date :=
  let dow := getDay d in
  let diff := (if dow <? weekStartsOn then 7 else 0) + dow - weekStartsOn in
  addDays d (- diff).

Definition endOfWeek (d : Date) (weekStartsOn : Z) : Date :=
  let dow := getDay d in
  let diff := (if dow <? weekStartsOn then -7 else 0) + 6 - (dow - weekStartsOn) in
  addDays d diff.

(** [n] consecutive days, [d] the first. *)
Fixpoint daysFrom (d : Date) (n : nat) : list Date :=
  match n with
  | O => []
  | S k => d :: daysFrom (nextDay d) k
  end.

(** Modelled from the spec: date-fns [eachDayOfInterval], the
    "day-interval enumeration": the days from [start] to [finish], both
    included, in order; no day when [finish] is before [start]. *)
Definition eachDayOfInterval (start finish : Date) : list Date :=
  daysFrom start (Z.to_nat (dayNumber finish - dayNumber start + 1)).

Fixpoint zeros (n : nat) : string :=
  match n with
  | O => EmptyString
  | S k => String "0" (zeros k)
  end.

(** Modelled from the spec: date-fns [addLeadingZeros], part of its
    "date formatting": the sign, then the digits left-padded with
    zeros to [targetLength]. *)
Definition addLeadingZeros (n : Z) (targetLength : nat) : string :=
  let digits := JsString.decimal n in
  ((if (n <? 0)%Z then "-" else "")
   ++ zeros (targetLength - String.length digits)%nat ++ digits)%string.

(** The year as the token [yyyy] prints it: years of the common era as
    they are, earlier ones as [1 - year]. *)
Definition eraYear (y : Z) : Z := if 0 <? y then y else 1 - y.

(** Modelled from the spec: date-fns [format] for the two patterns the page
    uses on event dates, "date formatting for the fixed pattern
    year-month-day". *)
Definition format_yyyy_MM (d : Date) : string :=
  (addLeadingZeros (eraYear (year d)) 4 ++ "-" ++ addLeadingZeros (month d) 2)%string.

Definition format_yyyy_MM_dd (d : Date) : string :=
  (format_yyyy_MM d ++ "-" ++ addLeadingZeros (day d) 2)%string.

End DateFns.

(** ** JavaScript numbers *)

(** The operators and built-ins the page applies to numbers.  [literal q]
    is the value of a numeric literal (or of an array length) denoting
    [q]; [num_lt a b] is [a < b] (and [b > a]), [num_le a b] is [a <= b];
    [Number] is the string-to-number conversion. *)
Class JSNumber (num : Type) : Type := {
  literal : Q -> num;
  num_add : num -> num -> num;
  num_sub : num -> num -> num;
  num_mul : num -> num -> num;
  num_div : num -> num -> num;
  num_lt : num -> num -> bool;
  num_le : num -> num -> bool;
  Number_isNaN : num -> bool;
  Math_round : num -> num;
  Math_min : num -> num -> num;
  Math_max : num -> num -> num;
  Number : string -> num
}.

Definition int {num : Type} `{JSNumber num} (z : Z) : num := literal (inject_Z z).

(** ** Data model *)

Inductive EnergyType : Type := Demand | Production | Storage | Provision.

Inductive Status : Type := Scheduled | Completed | Opportunity.

Definition EnergyType_eqb (a b : EnergyType) : bool :=
  match a, b with
  | Demand, Demand | Production, Production
  | Storage, Storage | Provision, Provision => true
  | _, _ => false
  end.

Definition Status_eqb (a b : Status) : bool :=
  match a, b with
  | Scheduled, Scheduled | Completed, Completed | Opportunity, Opportunity => true
  | _, _ => false
  end.

Record EnergyEvent (num : Type) : Type := mkEvent {
  id : string;
  title : string;
  type : EnergyType;
  date : string;
  startTime : string;
  endTime : string;
  energyKwh : num;
  status : Status;
  efficiencyScore : num;
  notes : option string
}.

Arguments mkEvent {num}.
Arguments id {num}.
Arguments title {num}.
Arguments type {num}.
Arguments date {num}.
Arguments startTime {num}.
Arguments endTime {num}.
Arguments energyKwh {num}.
Arguments status {num}.
Arguments efficiencyScore {num}.
Arguments notes {num}.

(** The accumulator of the summary's [reduce]: one running total per type. *)
Module TotalsByType.

Record t (num : Type) : Type := mk {
  Demand : num;
  Production : num;
  Storage : num;
  Provision : num
}.

Arguments mk {num}.
Arguments Demand {num}.
Arguments Production {num}.
Arguments Storage {num}.
Arguments Provision {num}.

End TotalsByType.

(** The draft of the "Schedule New Activity" form ([newEvent]); the energy
    amount is the text of the input field. *)
Module NewEvent.

Record t : Type := mk {
  title : string;
  type : EnergyType;
  date : string;
  startTime : string;
  endTime : string;
  energyKwh : string;
  status : Status;
  notes : string
}.

End NewEvent.

Module MonthSummary.

Record t (num : Type) : Type := mk {
  totalsByType : TotalsByType.t num;
  totalConsumption : num;
  totalProduction : num;
  storageBuffer : num;
  netBalance : num;
  completedCount : nat;
  totalEvents : nat;
  averageEfficiency : num
}.

Arguments mk {num}.
Arguments totalsByType {num}.
Arguments totalConsumption {num}.
Arguments totalProduction {num}.
Arguments storageBuffer {num}.
Arguments netBalance {num}.
Arguments completedCount {num}.
Arguments totalEvents {num}.
Arguments averageEfficiency {num}.

End MonthSummary.

Module Recommendation.

Record t : Type := mk { title : string; detail : string }.

End Recommendation.

(** The state of the page component: its four [useState] cells. *)
Record State (num : Type) : Type := mkState {
  visibleMonth : DateFns.Date;
  events : list (EnergyEvent num);
  activeFilter : option EnergyType;
  newEvent : NewEvent.t
}.

Arguments mkState {num}.
Arguments visibleMonth {num}.
Arguments events {num}.
Arguments activeFilter {num}.
Arguments newEvent {num}.

(** ** The page component *)

Section EnergyManagementCalendar.

Context {num : Type} `{JSNumber num}.

(** [acc[ty]] *)
Definition totalsGet (acc : TotalsByType.t num) (ty : EnergyType) : num :=
  match ty with
  | Demand => TotalsByType.Demand acc
  | Production => TotalsByType.Production acc
  | Storage => TotalsByType.Storage acc
  | Provision => TotalsByType.Provision acc
  end.

(** [acc[event.type] += event.energyKwh; return acc] *)
Definition totalsStep (acc : TotalsByType.t num) (event : EnergyEvent num)
  : TotalsByType.t num :=
  let d := TotalsByType.Demand acc in
  let p := TotalsByType.Production acc in
  let s := TotalsByType.Storage acc in
  let v := TotalsByType.Provision acc in
  match type event with
  | Demand => TotalsByType.mk (num_add d (energyKwh event)) p s v
  | Production => TotalsByType.mk d (num_add p (energyKwh event)) s v
  | Storage => TotalsByType.mk d p (num_add s (energyKwh event)) v
  | Provision => TotalsByType.mk d p s (num_add v (energyKwh event))
  end.

Definition totalsZero : TotalsByType.t num :=
  TotalsByType.mk (int 0) (int 0) (int 0) (int 0).

(** [events.filter((event) => event.date.startsWith(monthKey))] *)
Definition monthEvents (events : list (EnergyEvent num)) (visibleMonth : DateFns.Date)
  : list (EnergyEvent num) :=
  let monthKey := DateFns.format_yyyy_MM visibleMonth in
  filter (fun event => JsString.startsWith (date event) monthKey) events.

(** The [summary] memo (lines 184-220). *)
Definition summary (events : list (EnergyEvent num)) (visibleMonth : DateFns.Date)
  : MonthSummary.t num :=
  let monthEvents := monthEvents events visibleMonth in
  let totalsByType := fold_left totalsStep monthEvents totalsZero in
  let totalConsumption := TotalsByType.Demand totalsByType in
  let totalProduction :=
    num_add (TotalsByType.Production totalsByType) (TotalsByType.Provision totalsByType) in
  let storageBuffer := TotalsByType.Storage totalsByType in
  let netBalance := num_sub (num_add totalProduction storageBuffer) totalConsumption in
  let completedCount :=
    List.length (filter (fun event => Status_eqb (status event) Completed) monthEvents) in
  let averageEfficiency :=
    if (0 <? List.length monthEvents)%nat
    then Math_round
           (num_div
              (fold_left (fun acc event => num_add acc (efficiencyScore event))
                         monthEvents (int 0))
              (int (Z.of_nat (List.length monthEvents))))
    else int 0 in
  MonthSummary.mk totalsByType totalConsumption totalProduction storageBuffer
                  netBalance completedCount (List.length monthEvents) averageEfficiency.

(** [array.slice(0, 2)] *)
Definition slice_0_2 {A : Type} (l : list A) : list A := firstn 2 l.

(** The [recommendations] memo (lines 222-260). *)
Definition recommendations (summary : MonthSummary.t num) (events : list (EnergyEvent num))
  : list Recommendation.t :=
  let recs0 : list Recommendation.t := [] in
  let recs1 :=
    if num_lt (MonthSummary.netBalance summary) (int 0)
    then recs0 ++ [Recommendation.mk "Net Load Imbalance"
      "Demand outpaces supply this month. Shift flexible loads (e.g., EV charging) into early morning windows or increase storage dispatch."]
    else recs0 ++ [Recommendation.mk "Positive Net Balance"
      "You're producing more energy than you consume. Schedule a provision event to export surplus during afternoon peak pricing."] in
  let recs2 :=
    if num_lt (num_mul (TotalsByType.Production (MonthSummary.totalsByType summary))
                       (literal (12 # 10)))
              (TotalsByType.Demand (MonthSummary.totalsByType summary))
    then recs1 ++ [Recommendation.mk "Demand Peaks Forecasted"
      "Forecasted demand is 20% above on-site production. Consider adding a demand response event or activating backup generation."]
    else recs1 in
  let lowEfficiencyEvents :=
    map title
        (slice_0_2 (filter (fun event => num_lt (efficiencyScore event) (int 70)) events)) in
  if (0 <? List.length lowEfficiencyEvents)%nat
  then recs2 ++ [Recommendation.mk "Improve Efficiency Scores"
         ("Optimize schedules for " ++ JsString.join " & " lowEfficiencyEvents
          ++ " to boost their efficiency ratings above 70%.")]
  else recs2.

(** The [monthInterval] memo (lines 171-175). *)
Definition monthInterval (visibleMonth : DateFns.Date) : list DateFns.Date :=
  let start := DateFns.startOfWeek (DateFns.startOfMonth visibleMonth) 0 in
  let finish := DateFns.endOfWeek (DateFns.endOfMonth visibleMonth) 0 in
  DateFns.eachDayOfInterval start finish.

(** The [filteredEvents] memo (lines 177-182); [None] is the option "All". *)
Definition filteredEvents (events : list (EnergyEvent num)) (activeFilter : option EnergyType)
  : list (EnergyEvent num) :=
  match activeFilter with
  | None => events
  | Some ty => filter (fun event => EnergyType_eqb (type event) ty) events
  end.

(** The values the two [<select>] elements of the form offer. *)
Definition decodeType (value : string) : option EnergyType :=
  if value =? "Demand" then Some Demand
  else if value =? "Production" then Some Production
  else if value =? "Storage" then Some Storage
  else if value =? "Provision" then Some Provision
  else None.

Definition decodeStatus (value : string) : option Status :=
  if value =? "Scheduled" then Some Scheduled
  else if value =? "Completed" then Some Completed
  else if value =? "Opportunity" then Some Opportunity
  else None.

(** [{ ...prev, [field]: field === "energyKwh" ? value.replace(...) : value }]
    (lines 266-271).  The category and the status arrive as the text of a
    [<select>] option and are stored at their declared types; a key that is
    not a field of the draft leaves every field as it was. *)
Definition updateDraft (field value : string) (prev : NewEvent.t) : NewEvent.t :=
  let stored := if field =? "energyKwh" then JsString.replaceNonNumeric value else value in
  let 'NewEvent.mk title type date startTime endTime energyKwh status notes := prev in
  if field =? "title" then NewEvent.mk stored type date startTime endTime energyKwh status notes
  else if field =? "type" then
    match decodeType stored with
    | Some ty => NewEvent.mk title ty date startTime endTime energyKwh status notes
    | None => prev
    end
  else if field =? "date" then NewEvent.mk title type stored startTime endTime energyKwh status notes
  else if field =? "startTime" then NewEvent.mk title type date stored endTime energyKwh status notes
  else if field =? "endTime" then NewEvent.mk title type date startTime stored energyKwh status notes
  else if field =? "energyKwh" then NewEvent.mk title type date startTime endTime stored status notes
  else if field =? "status" then
    match decodeStatus stored with
    | Some st => NewEvent.mk title type date startTime endTime energyKwh st notes
    | None => prev
    end
  else if field =? "notes" then NewEvent.mk title type date startTime endTime energyKwh status stored
  else prev.

Definition handleChange (field value : string) (st : State num) : State num :=
  mkState (visibleMonth st) (events st) (activeFilter st)
          (updateDraft field value (newEvent st)).

(** The derived score of a created event (line 292). *)
Definition derivedEfficiencyScore (energyValue : num) : num :=
  Math_min (int 100)
    (Math_max (int 40)
       (Math_round
          (if num_lt (int 500) energyValue
           then int 80
           else num_sub (int 90) (num_div energyValue (int 10))))).

(** The two guards of the submit handler (lines 275-281): [true] when the
    handler returns early. *)
Definition missingField (draft : NewEvent.t) : bool :=
  JsString.isEmpty (JsString.trim (NewEvent.title draft))
  || JsString.isEmpty (NewEvent.date draft)
  || JsString.isEmpty (NewEvent.energyKwh draft).

Definition badEnergy (energyValue : num) : bool :=
  Number_isNaN energyValue || num_le energyValue (int 0).

(** The object literal of lines 283-294; [now] is the reading of
    [Date.now()]. *)
Definition createdEvent (now : Z) (draft : NewEvent.t) (energyValue : num)
  : EnergyEvent num :=
  {| id := "event-" ++ JsString.ofInteger now;
     title := JsString.trim (NewEvent.title draft);
     type := NewEvent.type draft;
     date := NewEvent.date draft;
     startTime := NewEvent.startTime draft;
     endTime := NewEvent.endTime draft;
     energyKwh := energyValue;
     status := NewEvent.status draft;
     efficiencyScore := derivedEfficiencyScore energyValue;
     notes := let trimmed := JsString.trim (NewEvent.notes draft) in
              if JsString.isEmpty trimmed then None else Some trimmed |}.

(** The draft after an accepted submission (lines 296-305). *)
Definition resetDraft (draft : NewEvent.t) : NewEvent.t :=
  {| NewEvent.title := "";
     NewEvent.type := NewEvent.type draft;
     NewEvent.date := NewEvent.date draft;
     NewEvent.startTime := "08:00";
     NewEvent.endTime := "09:00";
     NewEvent.energyKwh := "";
     NewEvent.status := NewEvent.status draft;
     NewEvent.notes := "" |}.

(** [handleCreateEvent] (lines 273-306). *)
Definition handleCreateEvent (now : Z) (st : State num) : State num :=
  let draft := newEvent st in
  if missingField draft then st
  else
    let energyValue := Number (NewEvent.energyKwh draft) in
    if badEnergy energyValue then st
    else
      mkState (visibleMonth st)
              (events st ++ [createdEvent now draft energyValue])
              (activeFilter st)
              (resetDraft draft).

(** What the user can do to the form: edit a field or submit. *)
Inductive Action : Type :=
| Change (field value : string)
| Submit (now : Z).

Definition step (st : State num) (a : Action) : State num :=
  match a with
  | Change field value => handleChange field value st
  | Submit now => handleCreateEvent now st
  end.

Definition run (actions : list Action) (st : State num) : State num :=
  fold_left step actions st.

(** The seed records (lines 32-117); [today] is [new Date()]. *)
Definition seed (n : Z) (title : string) (ty : EnergyType) (dd startTime endTime : string)
  (energyKwh : Z) (status : Status) (efficiencyScore : Z) (notes : string)
  (today : DateFns.Date) : EnergyEvent num :=
  mkEvent ("event-" ++ JsString.ofInteger n) title ty
          (DateFns.format_yyyy_MM today ++ "-" ++ dd) startTime endTime
          (int energyKwh) status (int efficiencyScore) (Some notes).

Definition initialEvents (today : DateFns.Date) : list (EnergyEvent num) :=
  [ seed 1 "EV Fleet Charging" Demand "05" "19:00" "22:30" 420 Scheduled 68
         "Aligned with evening time-of-use incentives." today;
    seed 2 "Solar Array Generation" Production "06" "07:30" "17:30" 560 Completed 92
         "Exceeded forecast by 8% due to clear skies." today;
    seed 3 "Battery Reserve Charge" Storage "08" "00:30" "02:00" 135 Scheduled 83
         "Nighttime charging to prep for peak shifting." today;
    seed 4 "Community Energy Share" Provision "10" "14:00" "16:00" 220 Completed 88
         "Delivered surplus to adjacent microgrid." today;
    seed 5 "Data Center Load Test" Demand "15" "13:00" "15:00" 315 Scheduled 54
         "Consider shifting to weekend window." today;
    seed 6 "Wind Turbine Peak" Production "17" "02:00" "05:00" 410 Completed 79
         "Met forecast; turbulence reduced output by 5%." today;
    seed 7 "Thermal Storage Discharge" Storage "22" "16:30" "19:00" 190 Opportunity 72
         "Dispatch to cover peak pricing interval." today ].

(** The initial state of the component (lines 156-169). *)
Definition initialState (today : DateFns.Date) : State num :=
  mkState (DateFns.startOfMonth today) (initialEvents today) None
          (NewEvent.mk "" Demand (DateFns.format_yyyy_MM_dd today)
                       "08:00" "09:00" "" Scheduled "").

End EnergyManagementCalendar.

(** ** The rendered view

    The parts of the JSX that compute: the conditions of the summary
    card, the [disabled] attribute of the submit button, and the binding of
    events to the cells of the grid. *)

Section View.

Context {num : Type} `{JSNumber num}.

(** [summary.netBalance >= 0] (lines 344 and 348); [a >= b] is [b <= a]. *)
Definition netBalanceSurplus (summary : MonthSummary.t num) : bool :=
  num_le (int 0) (MonthSummary.netBalance summary).

Definition netBalanceSign (summary : MonthSummary.t num) : string :=
  if netBalanceSurplus summary then "+" else "-".

Definition netBalanceCaption (summary : MonthSummary.t num) : string :=
  if netBalanceSurplus summary
  then "Surplus available for export"
  else "Cover deficit with storage or grid supply".

(** [disabled={!newEvent.title.trim() || !newEvent.energyKwh}] (line 568) *)
Definition submitDisabled (draft : NewEvent.t) : bool :=
  JsString.isEmpty (JsString.trim (NewEvent.title draft))
  || JsString.isEmpty (NewEvent.energyKwh draft).

(** date-fns [parseISO] is taken as it comes: a function from the date
    text to a date, [None] standing for an invalid date. *)
Variable parseISO : string -> option DateFns.Date.

(** Modelled from the spec: date-fns [isSameDay] and [isSameMonth], the
    "same-day/same-month comparison"; an invalid date is the same day as
    no day. *)
Definition isSameDay (a : option DateFns.Date) (b : DateFns.Date) : bool :=
  match a with
  | Some d => if DateFns.Date_eq_dec d b then true else false
  | None => false
  end.

Definition isSameMonth (a b : DateFns.Date) : bool :=
  (DateFns.year a =? DateFns.year b)%Z && (DateFns.month a =? DateFns.month b)%Z.

(** [filteredEvents.filter((event) => isSameDay(parseISO(event.date), day))]
    (line 408) *)
Definition dayEvents (filteredEvents : list (EnergyEvent num)) (day : DateFns.Date)
  : list (EnergyEvent num) :=
  filter (fun event => isSameDay (parseISO (date event)) day) filteredEvents.

(** [isSameMonth(day, visibleMonth)] (line 410) *)
Definition inCurrentMonth (day visibleMonth : DateFns.Date) : bool :=
  isSameMonth day visibleMonth.

End View.

(** [weekdays] (line 151), the header of the grid's seven columns. *)
Definition weekdays : list string := ["Sun"; "Mon"; "Tue"; "Wed"; "Thu"; "Fri"; "Sat"].

(** ** The values of the numbers, and the operators before rounding

    A JavaScript number is NaN, an infinity or a rational.  [Exact] holds
    the operators on these values with exact rational arithmetic: every
    finite value is a reduced fraction, no operation rounds or overflows,
    and zero carries no sign.  NaN and the infinities behave as in
    JavaScript.  The operators of the code round these results to binary64:
    see [Binary64] and the instance [double] below. *)

Inductive number : Type :=
| NaN
| NegInfinity
| Finite (q : Q)
| Infinity.

Module Exact.

Local Open Scope Q_scope.

Definition fin (q : Q) : number := Finite (Qred q).

Definition neg (a : number) : number :=
  match a with
  | NaN => NaN
  | NegInfinity => Infinity
  | Finite q => fin (- q)
  | Infinity => NegInfinity
  end.

Definition add (a b : number) : number :=
  match a, b with
  | NaN, _ | _, NaN => NaN
  | Infinity, NegInfinity | NegInfinity, Infinity => NaN
  | Infinity, _ | _, Infinity => Infinity
  | NegInfinity, _ | _, NegInfinity => NegInfinity
  | Finite x, Finite y => fin (x + y)
  end.

Definition sub (a b : number) : number := add a (neg b).

(** -1, 0 or 1; NaN has no sign. *)
Definition sign (a : number) : option Z :=
  match a with
  | NaN => None
  | NegInfinity => Some (-1)%Z
  | Finite q => Some (Z.sgn (Qnum q))
  | Infinity => Some 1%Z
  end.

Definition signed (s : Z) : number :=
  if (0 <? s)%Z then Infinity else if (s <? 0)%Z then NegInfinity else NaN.

Definition mul (a b : number) : number :=
  match a, b with
  | Finite x, Finite y => fin (x * y)
  | _, _ =>
      match sign a, sign b with
      | Some s, Some t => signed (s * t)
      | _, _ => NaN
      end
  end.

Definition div (a b : number) : number :=
  match a, b with
  | NaN, _ | _, NaN => NaN
  | Finite x, Finite y =>
      if Qeq_bool y 0 then signed (Z.sgn (Qnum x)) else fin (x / y)
  | Finite _, _ => fin 0
  | _, Finite y => signed (match sign a with Some s => s | None => 0 end
                           * (if (Qnum y <? 0)%Z then -1 else 1))
  | _, _ => NaN
  end.

Definition lt (a b : number) : bool :=
  match a, b with
  | NaN, _ | _, NaN => false
  | _, NegInfinity | Infinity, _ => false
  | NegInfinity, _ | _, Infinity => true
  | Finite x, Finite y => negb (Qle_bool y x)
  end.

Definition le (a b : number) : bool :=
  match a, b with
  | NaN, _ | _, NaN => false
  | NegInfinity, _ | _, Infinity => true
  | _, NegInfinity | Infinity, _ => false
  | Finite x, Finite y => Qle_bool x y
  end.

Definition isNaN (a : number) : bool :=
  match a with NaN => true | _ => false end.

(** [Math.round]: the nearest integer, halves towards positive infinity. *)
Definition round (a : number) : number :=
  match a with
  | Finite q => Finite (inject_Z (Qfloor (q + (1 # 2))))
  | _ => a
  end.

Definition min (a b : number) : number :=
  if isNaN a || isNaN b then NaN else if lt b a then b else a.

Definition max (a b : number) : number :=
  if isNaN a || isNaN b then NaN else if lt a b then b else a.

(** *** [Number(text)]: the StringNumericLiteral grammar *)

Definition digitValue (base : Z) (c : ascii) : option Z :=
  let n := Z.of_nat (nat_of_ascii c) in
  let v := if ((48 <=? n) && (n <=? 57))%Z then Some (n - 48)%Z
           else if ((97 <=? n) && (n <=? 102))%Z then Some (n - 87)%Z
           else if ((65 <=? n) && (n <=? 70))%Z then Some (n - 55)%Z
           else None in
  match v with
  | Some d => if (d <? base)%Z then Some d else None
  | None => None
  end.

(** Reads the longest run of digits in [base] at the head of [s]: the
    value read (continuing [acc]), the number of digits, and the rest. *)
Fixpoint readDigits (base : Z) (acc : Z) (count : nat) (s : string)
  : Z * nat * string :=
  match s with
  | EmptyString => (acc, count, s)
  | String c r =>
      match digitValue base c with
      | Some d => readDigits base (acc * base + d)%Z (S count) r
      | None => (acc, count, s)
      end
  end.

Definition pow10 (e : Z) : Q := Qpower 10 e.

(** ExponentPart, optional: [e] or [E], an optional sign, digits. *)
Definition readExponent (s : string) : option Z :=
  match s with
  | EmptyString => Some 0%Z
  | String c r =>
      if (Ascii.eqb c "e" || Ascii.eqb c "E")%bool then
        let '(negative, r1) :=
          match r with
          | String "-" r' => (true, r')
          | String "+" r' => (false, r')
          | _ => (false, r)
          end in
        match readDigits 10 0 0 r1 with
        | (_, O, _) => None
        | (e, _, EmptyString) => Some (if negative then - e else e)%Z
        | _ => None
        end
      else None
  end.

(** StrUnsignedDecimalLiteral other than [Infinity]. *)
Definition readUnsignedDecimal (s : string) : option Q :=
  let '(whole, n1, r1) := readDigits 10 0 0 s in
  let '(frac, n2, r2) :=
    match r1 with
    | String "." r => readDigits 10 0 0 r
    | _ => (0%Z, O, r1)
    end in
  match n1, n2 with
  | O, O => None
  | _, _ =>
      match readExponent r2 with
      | Some e =>
          Some ((inject_Z whole + inject_Z frac / pow10 (Z.of_nat n2)) * pow10 e)
      | None => None
      end
  end.

Definition readNonDecimal (base : Z) (s : string) : number :=
  match readDigits base 0 0 s with
  | (_, O, _) => NaN
  | (v, _, EmptyString) => fin (inject_Z v)
  | _ => NaN
  end.

Definition readSigned (negative : bool) (s : string) : number :=
  if String.eqb s "Infinity" then (if negative then NegInfinity else Infinity)
  else match readUnsignedDecimal s with
       | Some q => fin (if negative then - q else q)
       | None => NaN
       end.

Definition parse (text : string) : number :=
  match JsString.trim text with
  | EmptyString => fin 0
  | String "0" (String "x" r) | String "0" (String "X" r) => readNonDecimal 16 r
  | String "0" (String "o" r) | String "0" (String "O" r) => readNonDecimal 8 r
  | String "0" (String "b" r) | String "0" (String "B" r) => readNonDecimal 2 r
  | String "-" r => readSigned true r
  | String "+" r => readSigned false r
  | s => readSigned false s
  end.

End Exact.

#[export] Instance number_JSNumber : JSNumber number := {
  literal := Exact.fin;
  num_add := Exact.add;
  num_sub := Exact.sub;
  num_mul := Exact.mul;
  num_div := Exact.div;
  num_lt := Exact.lt;
  num_le := Exact.le;
  Number_isNaN := Exact.isNaN;
  Math_round := Exact.round;
  Math_min := Exact.min;
  Math_max := Exact.max;
  Number := Exact.parse
}.

(** ** The numbers of the code: IEEE 754 binary64

    Each operator of the code returns the double nearest to the exact
    result, the one with the even significand when two are as near, and an
    infinity when that double would lie beyond the largest one.
    [Binary64.round] is this rounding on the values of [number]: 53 bits
    of precision, the smallest spacing [2^-1074], overflow from [2^1024]
    on.  Comparisons, [Math.min], [Math.max] and [Math.round] need no
    rounding: their result on doubles is a double.  As in [Exact], zero
    carries no sign; no comparison tells the two zeros apart, and the page
    divides by the literal 10 and by list lengths only. *)

Module Binary64.

Local Open Scope Q_scope.

(** [2 ^ k], for any integer [k]. *)
Definition pow2 (k : Z) : Q :=
  if (0 <=? k)%Z then inject_Z (2 ^ k) else 1 # Z.to_pos (2 ^ (- k)).

(** The binary exponent of a positive rational: the [k] with
    [2 ^ k <= a < 2 ^ (k + 1)]. *)
Definition ilog2 (a : Q) : Z :=
  let k := (Z.log2 (Qnum a) - Z.log2 (Zpos (Qden a)))%Z in
  if Qle_bool (pow2 k) a then k else (k - 1)%Z.

(** The nearest integer, a half going to the even neighbour. *)
Definition roundHalfEven (x : Q) : Z :=
  let f := Qfloor x in
  match Qcompare (x - inject_Z f) (1 # 2) with
  | Lt => f
  | Gt => (f + 1)%Z
  | Eq => if Z.even f then f else (f + 1)%Z
  end.

(** The exponent of the spacing of the doubles around a positive [a]. *)
Definition ulpExponent (a : Q) : Z := Z.max (ilog2 a - 52) (-1074).

(** The multiple of the spacing nearest to a positive [a]. *)
Definition nearestValue (a : Q) : Q :=
  let e := ulpExponent a in
  inject_Z (roundHalfEven (a / pow2 e)) * pow2 e.

(** The double nearest to a positive rational; [None] when it overflows. *)
Definition nearestPositive (a : Q) : option Q :=
  let v := nearestValue a in
  if Qle_bool (pow2 1024) v then None else Some (Qred v).

Definition round (a : number) : number :=
  match a with
  | Finite q =>
      match Qcompare q 0 with
      | Eq => Finite 0
      | Gt => match nearestPositive q with
              | Some v => Finite v
              | None => Infinity
              end
      | Lt => match nearestPositive (- q) with
              | Some v => Finite (Qred (- v))
              | None => NegInfinity
              end
      end
  | _ => a
  end.

End Binary64.

(** A double, by its value. *)
Record double : Type := Double { exactValue : number }.

(** An arithmetic operator on doubles: the exact result, rounded. *)
Definition double2 (f : number -> number -> number) (a b : double) : double :=
  Double (Binary64.round (f (exactValue a) (exactValue b))).

#[export] Instance double_JSNumber : JSNumber double := {
  literal q := Double (Binary64.round (Exact.fin q));
  num_add := double2 Exact.add;
  num_sub := double2 Exact.sub;
  num_mul := double2 Exact.mul;
  num_div := double2 Exact.div;
  num_lt a b := Exact.lt (exactValue a) (exactValue b);
  num_le a b := Exact.le (exactValue a) (exactValue b);
  Number_isNaN a := Exact.isNaN (exactValue a);
  Math_round a := Double (Exact.round (exactValue a));
  Math_min a b := Double (Exact.min (exactValue a) (exactValue b));
  Math_max a b := Double (Exact.max (exactValue a) (exactValue b));
  Number text := Double (Binary64.round (Exact.parse text))
}.

(** ** Vocabulary of the specification *)

(** A character the energy field may keep. *)
Definition numericChar (c : ascii) : bool := JsString.isDigit c || Ascii.eqb c ".".

Section Vocabulary.

Context {num : Type} `{JSNumber num}.

(** Spec-side vocabulary: the sum, in list order, of the energy of the
    events of one type, and the mean of a list of numbers. *)
Definition totalEnergy (ty : EnergyType) (l : list (EnergyEvent num)) : num :=
  fold_left num_add
            (map energyKwh (filter (fun event => EnergyType_eqb (type event) ty) l))
            (int 0).

Definition sum (l : list num) : num := fold_left num_add l (int 0).

Definition mean (l : list num) : num :=
  num_div (sum l) (int (Z.of_nat (List.length l))).

Definition titled (name : string) (r : Recommendation.t) : bool :=
  String.eqb (Recommendation.title r) name.

Definition countTitled (name : string) (recs : list Recommendation.t) : nat :=
  List.length (filter (titled name) recs).

(** A submission is accepted when it passes both guards. *)
Definition accepted (st : State num) : bool :=
  negb (missingField (newEvent st))
  && negb (badEnergy (Number (NewEvent.energyKwh (newEvent st)))).

(** The ids in the event store, in order. *)
Definition ids (st : State num) : list string := map id (events st).

(** The clock readings of the submissions among [actions], in order. *)
Fixpoint submitTimes (actions : list Action) : list Z :=
  match actions with
  | [] => []
  | Change _ _ :: rest => submitTimes rest
  | Submit now :: rest => now :: submitTimes rest
  end.

(** A value clamped to an interval, by comparison, and the derived score
    as the specification words it: 80 above 500, else the rounded
    90 - e/10, clamped to [40, 100]. *)
Definition clampTo (lo hi x : num) : num :=
  if num_lt x lo then lo else if num_lt hi x then hi else x.

Definition specifiedScore (e : num) : num :=
  clampTo (int 40) (int 100)
    (if num_lt (int 500) e
     then int 80
     else Math_round (num_sub (int 90) (num_div e (int 10)))).

End Vocabulary.

(** ** Vocabulary of the further properties *)

Section FurtherVocabulary.

Context {num : Type} `{JSNumber num}.

(** What every event the form creates satisfies. *)
Definition wellFormed (event : EnergyEvent num) : Prop :=
  JsString.isEmpty (title event) = false
  /\ JsString.trim (title event) = title event
  /\ JsString.isEmpty (date event) = false
  /\ badEnergy (energyKwh event) = false
  /\ efficiencyScore event = derivedEfficiencyScore (energyKwh event)
  /\ notes event <> Some "".

(** [event.efficiencyScore < 70] *)
Definition lowEfficiency (event : EnergyEvent num) : bool :=
  num_lt (efficiencyScore event) (int 70).

(** The edits of a list of (field, value) pairs, none of them a
    submission. *)
Definition typing (edits : list (string * string)) : list Action :=
  map (fun edit => Change (fst edit) (snd edit)) edits.

End FurtherVocabulary.

(** NaN or a finite number that is not negative. *)
Definition nonNegativeOrNaN (a : number) : Prop :=
  a = NaN \/ exists q : Q, a = Finite q /\ (0 <= q)%Q.

(** A double that is not below zero: NaN, Infinity, or finite and not
    negative. *)
Definition notNegative (a : double) : Prop :=
  exactValue a = NaN \/ exactValue a = Infinity
  \/ exists q : Q, exactValue a = Finite q /\ (0 <= q)%Q.

(** An event whose energy is a number above 0 (Infinity included) and
    whose score is an integer from 40 to 92. *)
Definition soundEvent (event : EnergyEvent double) : Prop :=
  Number_isNaN (energyKwh event) = false
  /\ num_lt (int 0) (energyKwh event) = true
  /\ exists z : Z,
       efficiencyScore event = Double (Finite (inject_Z z)) /\ (40 <= z <= 92)%Z.

(** ** Sample states *)

Definition today : DateFns.Date := DateFns.mkDate 2025 3 9.

Definition seeded : State number := initialState today.

(** A reading of [Date.now()]. *)
Definition clock : Z := 1741500000000%Z.

(** The seeded page with a title and an energy text in the draft. *)
Definition drafted (title energyText : string) : State number :=
  mkState (visibleMonth seeded) (events seeded) (activeFilter seeded)
          (NewEvent.mk title Demand "2025-03-12" "10:15" "11:45" energyText Completed "").

(** Two submissions, the draft refilled in between, at the clock readings
    [first] and [second]. *)
Definition twoSubmissions (first second : Z) : list Action :=
  [Submit first; Change "title" "Second load"; Change "energyKwh" "240"; Submit second].

(** A reader of the fixed pattern year-month-day (four, two and two
    digits), to run the day cells on the sample states. *)
Definition twoDigits (a b : ascii) : option Z :=
  match Exact.digitValue 10 a, Exact.digitValue 10 b with
  | Some x, Some y => Some (10 * x + y)%Z
  | _, _ => None
  end.

Definition readFixedDate (text : string) : option DateFns.Date :=
  match text with
  | String y1 (String y2 (String y3 (String y4 (String "-"
      (String m1 (String m2 (String "-" (String d1 (String d2 EmptyString))))))))) =>
      match twoDigits y1 y2, twoDigits y3 y4, twoDigits m1 m2, twoDigits d1 d2 with
      | Some a, Some b, Some m, Some d => Some (DateFns.mkDate (100 * a + b) m d)
      | _, _, _, _ => None
      end
  | _ => None
  end.

(** One more record, dated on the first of the month of [day]. *)
Definition lateLoad (day : DateFns.Date) : EnergyEvent number :=
  seed 8 "Late load" Demand "01" "06:00" "07:00" 120 Completed 78 "Moved to the morning." day.

(** The same states on doubles. *)
Definition loaded : State double := initialState today.

Definition filled (title energyText : string) : State double :=
  mkState (visibleMonth loaded) (events loaded) (activeFilter loaded)
          (NewEvent.mk title Demand "2025-03-12" "10:15" "11:45" energyText Completed "").

Fixpoint repeatChar (c : ascii) (n : nat) : string :=
  match n with
  | O => EmptyString
  | S k => String c (repeatChar c k)
  end.

(** A text of 310 digits: 1 followed by 309 zeros. *)
Definition overflowing : string := String "1" (repeatChar "0" 309).

(** A text of 402 characters: 0.000...01, 400 zeros after the point. *)
Definition underflowing : string := ("0." ++ repeatChar "0" 400 ++ "1")%string.

(** Two submissions of the 310-digit energy, one of production and one of
    demand, at the clock readings [first] and [second]. *)
Definition overflowRun (first second : Z) : list Action :=
  [Change "type" "Production"; Change "title" "Array"; Change "energyKwh" overflowing;
   Submit first;
   Change "type" "Demand"; Change "title" "Load"; Change "energyKwh" overflowing;
   Submit second].

(** * Properties *)

(** ** The models on concrete inputs *)

Example trim_demo : JsString.trim "  EV  Fleet " = "EV  Fleet".
Proof. reflexivity. Qed.

Example replaceNonNumeric_demo : JsString.replaceNonNumeric "1a5,0.5 kWh" = "150.5".
Proof. reflexivity. Qed.

Example format_demo :
  DateFns.format_yyyy_MM_dd (DateFns.mkDate 2025 3 9) = "2025-03-09".
Proof. reflexivity. Qed.

Example getDay_demo : DateFns.getDay (DateFns.mkDate 1970 1 1) = 4%Z.
Proof. reflexivity. Qed.

Example Number_demo :
  map Number ["100"; " 12.50 "; "1.2.3"; "abc"; ""; "."; "5."; ".5"; "1e3"; "0x1F"; "-Infinity"]
  = [Finite 100; Finite (25 # 2); NaN; NaN; Finite 0; NaN; Finite 5; Finite (1 # 2);
     Finite 1000; Finite 31; NegInfinity].
Proof. reflexivity. Qed.

Example round_demo :
  map Math_round [Finite (5 # 2); Finite (-5 # 2); Finite (249 # 100); Finite (-13 # 5)]
  = [Finite 3; Finite (-2); Finite 2; Finite (-3)].
Proof. reflexivity. Qed.

(** [Number] on doubles: the nearest double, Infinity on overflow, 0 on
    underflow. *)
Example Number_double_demo :
  map (fun text => exactValue (Number text))
      ["100"; "5.000000000000001"; "500.00000000000001"; overflowing; underflowing; "1.2.3"]
  = [Finite 100; Finite (5629499534213121 # 1125899906842624); Finite 500; Infinity;
     Finite 0; NaN].
Proof. vm_compute. reflexivity. Qed.

(** 3 * 1.2 is 3.5999999999999996, 0.1 + 0.2 is 0.30000000000000004, and
    90 - 5.000000000000001 / 10 is 89.5. *)
Example arithmetic_double_demo :
  exactValue (num_mul (int 3) (Number "1.2")) = Finite (2026619832316723 # 562949953421312)
  /\ num_add (Number "0.1") (Number "0.2") = (Number "0.30000000000000004" : double)
  /\ exactValue (num_sub (int 90) (num_div (Number "5.000000000000001") (int 10)))
     = Finite (179 # 2).
Proof. repeat split; vm_compute; reflexivity. Qed.

(** The score on doubles, and where the arithmetic before rounding would
    differ. *)
Example score_double_demo :
  map (fun text => exactValue (derivedEfficiencyScore (Number text)))
      ["5.000000000000001"; "500.00000000000001"; "600"; "0.4"; overflowing]
  = [Finite 90; Finite 40; Finite 80; Finite 90; Finite 80]
  /\ derivedEfficiencyScore (Exact.parse "5.000000000000001") = Finite 89.
Proof. split; vm_compute; reflexivity. Qed.

(** The second guard on doubles: the underflowing text is 0 and is
    refused, the overflowing one is Infinity and is accepted. *)
Example guards_double_demo :
  accepted (filled "Load test" underflowing) = false
  /\ accepted (filled "Load test" overflowing) = true.
Proof. split; vm_compute; reflexivity. Qed.

(** On the seed records nothing is rounded: the two arithmetics agree. *)
Example summary_double_demo :
  exactValue (MonthSummary.netBalance (summary (events loaded) (visibleMonth loaded)))
  = MonthSummary.netBalance (summary (events seeded) (visibleMonth seeded))
  /\ exactValue (MonthSummary.averageEfficiency (summary (events loaded) (visibleMonth loaded)))
     = MonthSummary.averageEfficiency (summary (events seeded) (visibleMonth seeded)).
Proof. split; vm_compute; reflexivity. Qed.

(** ** Strings *)

Lemma isEmpty_true (s : string) : JsString.isEmpty s = true <-> s = "".
Proof. destruct s; simpl; split; congruence. Qed.

Lemma trimEnd_whitespaceOnly (s : string) :
  JsString.isEmpty (JsString.trimEnd s) = JsString.whitespaceOnly s.
Proof.
  unfold JsString.whitespaceOnly.
  induction s as [|c r IH]; simpl; [reflexivity|].
  rewrite <- IH.
  destruct (JsString.isWhiteSpace c), (JsString.isEmpty (JsString.trimEnd r)); reflexivity.
Qed.

Lemma trimStart_whitespaceOnly (s : string) :
  JsString.whitespaceOnly (JsString.trimStart s) = JsString.whitespaceOnly s.
Proof.
  unfold JsString.whitespaceOnly.
  induction s as [|c r IH]; simpl; [reflexivity|].
  destruct (JsString.isWhiteSpace c) eqn:E; simpl; [exact IH | now rewrite E].
Qed.

(** [s.trim()] is the empty string exactly when [s] holds nothing but
    white space. *)
Lemma trim_isEmpty (s : string) :
  JsString.isEmpty (JsString.trim s) = JsString.whitespaceOnly s.
Proof.
  unfold JsString.trim.
  now rewrite trimEnd_whitespaceOnly, trimStart_whitespaceOnly.
Qed.

Lemma replaceNonNumeric_numeric (s : string) :
  JsString.allChars numericChar (JsString.replaceNonNumeric s) = true.
Proof.
  induction s as [|c r IH]; simpl; [reflexivity|].
  destruct (JsString.isDigit c || Ascii.eqb c ".") eqn:E; simpl; [|exact IH].
  unfold numericChar at 1. now rewrite E.
Qed.

(** The filter keeps a text of digits and full stops as it is. *)
Lemma replaceNonNumeric_fixpoint (s : string) :
  JsString.allChars numericChar s = true -> JsString.replaceNonNumeric s = s.
Proof.
  induction s as [|c r IH]; simpl; [reflexivity|].
  unfold numericChar at 1.
  destruct (JsString.isDigit c || Ascii.eqb c ".") eqn:E; simpl; [|discriminate].
  intros Hr. now rewrite IH.
Qed.

Lemma replaceNonNumeric_points (s : string) :
  JsString.countChar "." (JsString.replaceNonNumeric s) = JsString.countChar "." s.
Proof.
  induction s as [|c r IH]; [reflexivity|].
  simpl. destruct (Ascii.eqb c ".") eqn:E.
  - rewrite orb_true_r. simpl. now rewrite E, IH.
  - rewrite orb_false_r. destruct (JsString.isDigit c); simpl; [now rewrite E, IH | exact IH].
Qed.

(** ** Decimal texts, padding and the month key *)

Section DecimalTexts.

Local Open Scope string_scope.

Lemma N_to_uint_nonnil (n : N) : N.to_uint n <> Decimal.Nil.
Proof.
  destruct n as [|p]; simpl; [discriminate | apply DecimalPos.Unsigned.to_uint_nonnil].
Qed.

Lemma decimal_read (n : Z) :
  NilZero.uint_of_string (JsString.decimal n) = Some (N.to_uint (Z.abs_N n)).
Proof. unfold JsString.decimal. apply NilZero.usu, N_to_uint_nonnil. Qed.

Lemma decimal_inj (a b : Z) :
  JsString.decimal a = JsString.decimal b -> Z.abs_N a = Z.abs_N b.
Proof.
  intros Heq. apply DecimalN.Unsigned.to_uint_inj.
  pose proof (decimal_read a) as Ha. rewrite Heq, decimal_read in Ha. congruence.
Qed.

(** The digits never start with a minus sign. *)
Lemma decimal_no_sign (n : Z) (r : string) : JsString.decimal n <> String "-" r.
Proof.
  intros Heq. pose proof (decimal_read n) as Hn. rewrite Heq in Hn.
  simpl in Hn. destruct (NilEmpty.uint_of_string r); discriminate.
Qed.

Lemma ofInteger_inj (a b : Z) : JsString.ofInteger a = JsString.ofInteger b -> a = b.
Proof.
  unfold JsString.ofInteger.
  destruct (Z.ltb_spec a 0), (Z.ltb_spec b 0); intros Heq.
  - injection Heq as Heq. apply decimal_inj in Heq. lia.
  - symmetry in Heq. now apply decimal_no_sign in Heq.
  - now apply decimal_no_sign in Heq.
  - apply decimal_inj in Heq. lia.
Qed.

Lemma prefix_exists (p s : string) :
  String.prefix p s = true <-> exists r, s = p ++ r.
Proof.
  revert s. induction p as [|a p IH]; intros s; simpl.
  - destruct s; split; eauto.
  - destruct s as [|b s]; simpl.
    + split; [discriminate | intros [r Hr]; discriminate].
    + destruct (ascii_dec a b) as [-> | Hne].
      * rewrite IH. split; intros [r Hr]; exists r; congruence.
      * split; [discriminate | intros [r Hr]; congruence].
Qed.

Lemma string_of_uint_digits (d : Decimal.uint) :
  JsString.allChars JsString.isDigit (NilEmpty.string_of_uint d) = true.
Proof. induction d; simpl; auto. Qed.

Lemma decimal_digits (n : Z) : JsString.allChars JsString.isDigit (JsString.decimal n) = true.
Proof.
  unfold JsString.decimal, NilZero.string_of_uint.
  destruct (N.to_uint (Z.abs_N n)); try reflexivity; apply string_of_uint_digits.
Qed.

Lemma allChars_app (p : ascii -> bool) (a b : string) :
  JsString.allChars p (a ++ b) = JsString.allChars p a && JsString.allChars p b.
Proof. induction a as [|c a IH]; simpl; [reflexivity | now rewrite IH, andb_assoc]. Qed.

Lemma zeros_digits (k : nat) : JsString.allChars JsString.isDigit (DateFns.zeros k) = true.
Proof. induction k; simpl; auto. Qed.

Lemma addLeadingZeros_digits (n : Z) (len : nat) :
  (0 <= n)%Z -> JsString.allChars JsString.isDigit (DateFns.addLeadingZeros n len) = true.
Proof.
  intros Hn. unfold DateFns.addLeadingZeros.
  destruct (Z.ltb_spec n 0); [lia|]. simpl.
  now rewrite allChars_app, zeros_digits, decimal_digits.
Qed.

(** Two runs of digits, each followed by a hyphen, that start equal texts
    are the same run. *)
Lemma digits_then_hyphen (a a' x x' : string) :
  JsString.allChars JsString.isDigit a = true ->
  JsString.allChars JsString.isDigit a' = true ->
  a ++ String "-" x = a' ++ String "-" x' -> a = a' /\ x = x'.
Proof.
  revert a'. induction a as [|c a IH]; intros [|c' a'] Ha Ha' Heq; simpl in *.
  - injection Heq as ->. auto.
  - injection Heq as <- _. discriminate.
  - injection Heq as -> _. discriminate.
  - apply andb_true_iff in Ha, Ha'. destruct Ha as [_ Ha], Ha' as [_ Ha'].
    injection Heq as -> Heq. destruct (IH a' Ha Ha' Heq) as [-> ->]. auto.
Qed.

Lemma uint_of_string_zeros (k : nat) (s : string) :
  NilEmpty.uint_of_string (DateFns.zeros k ++ s)
  = option_map (Nat.iter k Decimal.D0) (NilEmpty.uint_of_string s).
Proof.
  induction k as [|k IH]; simpl.
  - now destruct (NilEmpty.uint_of_string s).
  - rewrite IH. now destruct (NilEmpty.uint_of_string s).
Qed.

Lemma of_uint_zeros (k : nat) (d : Decimal.uint) :
  N.of_uint (Nat.iter k Decimal.D0 d) = N.of_uint d.
Proof. induction k as [|k IH]; simpl; [reflexivity | exact IH]. Qed.

Lemma addLeadingZeros_inj (a b : Z) (len : nat) :
  (0 <= a)%Z -> (0 <= b)%Z ->
  DateFns.addLeadingZeros a len = DateFns.addLeadingZeros b len -> a = b.
Proof.
  intros Ha Hb. unfold DateFns.addLeadingZeros.
  destruct (Z.ltb_spec a 0); [lia|]. destruct (Z.ltb_spec b 0); [lia|].
  simpl. intros Heq.
  apply (f_equal NilEmpty.uint_of_string) in Heq.
  rewrite !uint_of_string_zeros in Heq.
  assert (Hread : forall n, NilEmpty.uint_of_string (JsString.decimal n)
                            = Some (N.to_uint (Z.abs_N n))).
  { intros n. pose proof (decimal_read n) as Hr.
    unfold NilZero.uint_of_string in Hr.
    destruct (JsString.decimal n) eqn:E; [discriminate | exact Hr]. }
  rewrite !Hread in Heq. simpl in Heq. injection Heq as Heq.
  apply (f_equal N.of_uint) in Heq.
  rewrite !of_uint_zeros, !DecimalN.Unsigned.of_to in Heq. lia.
Qed.

Lemma append_assoc (a b c : string) : (a ++ b) ++ c = a ++ (b ++ c).
Proof. induction a as [|x a IH]; simpl; [reflexivity | now rewrite IH]. Qed.

Lemma append_inj_length (a a' x x' : string) :
  String.length a = String.length a' -> a ++ x = a' ++ x' -> a = a'.
Proof.
  revert a'. induction a as [|c a IH]; intros [|c' a'] Hlen Heq; simpl in *;
    try reflexivity; try discriminate.
  injection Heq as -> Heq. injection Hlen as Hlen. now rewrite (IH a' Hlen Heq).
Qed.

Lemma month_length_2 (m : Z) :
  (1 <= m <= 12)%Z -> String.length (DateFns.addLeadingZeros m 2) = 2%nat.
Proof.
  intros Hm.
  assert (m = 1 \/ m = 2 \/ m = 3 \/ m = 4 \/ m = 5 \/ m = 6 \/ m = 7 \/ m = 8
          \/ m = 9 \/ m = 10 \/ m = 11 \/ m = 12)%Z as Hmonth by lia.
  repeat (destruct Hmonth as [Hmonth | Hmonth]); subst m; reflexivity.
Qed.

(** For dates of the common era, an ISO date text starts with the month
    key exactly when the date lies in that month. *)
Lemma startsWith_monthKey (visibleMonth d : DateFns.Date) :
  DateFns.valid visibleMonth -> (0 < DateFns.year visibleMonth)%Z ->
  DateFns.valid d -> (0 < DateFns.year d)%Z ->
  JsString.startsWith (DateFns.format_yyyy_MM_dd d) (DateFns.format_yyyy_MM visibleMonth) = true
  <-> DateFns.year d = DateFns.year visibleMonth
      /\ DateFns.month d = DateFns.month visibleMonth.
Proof.
  intros [Hvm _] Hvy [Hdm _] Hdy.
  unfold JsString.startsWith. rewrite prefix_exists.
  unfold DateFns.format_yyyy_MM_dd, DateFns.format_yyyy_MM, DateFns.eraYear.
  destruct (Z.ltb_spec 0 (DateFns.year visibleMonth)); [|lia].
  destruct (Z.ltb_spec 0 (DateFns.year d)); [|lia].
  split.
  - intros [r Hr]. rewrite !append_assoc in Hr. simpl in Hr.
    apply digits_then_hyphen in Hr; try (apply addLeadingZeros_digits; lia).
    destruct Hr as [Hyear Hrest].
    apply addLeadingZeros_inj in Hyear; try lia.
    apply append_inj_length in Hrest;
      [|rewrite !month_length_2 by assumption; reflexivity].
    apply addLeadingZeros_inj in Hrest; lia.
  - intros [-> ->]. eexists. reflexivity.
Qed.

End DecimalTexts.

(** ** Month Summary Aggregator and Recommendation Engine *)

Section Aggregation.

Context {num : Type} `{JSNumber num}.

(** The accumulator of the [reduce] keeps, for each type, the running sum
    of that type's events. *)
Lemma fold_totalsStep (ty : EnergyType) (l : list (EnergyEvent num))
  (acc : TotalsByType.t num) :
  totalsGet (fold_left totalsStep l acc) ty
  = fold_left num_add
      (map energyKwh (filter (fun event => EnergyType_eqb (type event) ty) l))
      (totalsGet acc ty).
Proof.
  revert acc.
  induction l as [|event l IH]; intros acc; simpl; [reflexivity|].
  rewrite IH. unfold totalsStep.
  destruct (type event), ty; simpl; reflexivity.
Qed.

Lemma totalsByType_totalEnergy (ty : EnergyType) (events : list (EnergyEvent num))
  (visibleMonth : DateFns.Date) :
  totalsGet (MonthSummary.totalsByType (summary events visibleMonth)) ty
  = totalEnergy ty (monthEvents events visibleMonth).
Proof.
  unfold summary, totalEnergy; simpl.
  rewrite fold_totalsStep. destruct ty; reflexivity.
Qed.

Lemma fold_scores (l : list (EnergyEvent num)) (acc : num) :
  fold_left (fun a event => num_add a (efficiencyScore event)) l acc
  = fold_left num_add (map efficiencyScore l) acc.
Proof.
  revert acc. induction l as [|event l IH]; intros acc; simpl; [reflexivity|apply IH].
Qed.

Lemma monthEvents_nil_iff (events : list (EnergyEvent num)) (visibleMonth : DateFns.Date) :
  monthEvents events visibleMonth = []
  <-> forall event, In event events ->
        JsString.startsWith (date event) (DateFns.format_yyyy_MM visibleMonth) = false.
Proof.
  unfold monthEvents. split.
  - intros Hnil event Hin.
    destruct (JsString.startsWith (date event) (DateFns.format_yyyy_MM visibleMonth)) eqn:E;
      [|reflexivity].
    assert (Hf : In event (filter (fun e => JsString.startsWith (date e)
                 (DateFns.format_yyyy_MM visibleMonth)) events))
      by (apply filter_In; split; assumption).
    rewrite Hnil in Hf. destruct Hf.
  - intros Hall. induction events as [|event l IH]; simpl; [reflexivity|].
    rewrite (Hall event (or_introl eq_refl)). apply IH.
    intros e He. apply Hall. now right.
Qed.

(** C1: for every event collection and visible month, the summary's
    netBalance is (Production total + Provision total) + Storage total
    - Demand total, each total being the sum of energyKwh over the events of
    that type among those the summary selects for the visible month.  The
    equation is between the operator applications themselves, so it holds
    whatever the arithmetic of the numbers is.  The summary selects the
    events whose date text starts with the month key; for an event whose
    date text is the ISO form of a common-era date, that is exactly when
    the date falls in the visible month. *)
Theorem netBalance_formula (events : list (EnergyEvent num)) (visibleMonth : DateFns.Date) :
  let selected := monthEvents events visibleMonth in
  MonthSummary.netBalance (summary events visibleMonth)
  = num_sub
      (num_add (num_add (totalEnergy Production selected) (totalEnergy Provision selected))
               (totalEnergy Storage selected))
      (totalEnergy Demand selected)
  /\ (forall (event : EnergyEvent num) (d : DateFns.Date),
         DateFns.valid visibleMonth -> (0 < DateFns.year visibleMonth)%Z ->
         DateFns.valid d -> (0 < DateFns.year d)%Z ->
         date event = DateFns.format_yyyy_MM_dd d ->
         (In event selected
          <-> In event events
              /\ DateFns.year d = DateFns.year visibleMonth
              /\ DateFns.month d = DateFns.month visibleMonth)).
Proof.
  intros selected. subst selected. split.
  - rewrite <- !totalsByType_totalEnergy. reflexivity.
  - intros event d Hvm Hvy Hd Hdy Hdate.
    unfold monthEvents. rewrite filter_In, Hdate.
    rewrite (startsWith_monthKey visibleMonth d Hvm Hvy Hd Hdy). reflexivity.
Qed.

(** C2: the recommendation list holds exactly one of the advisories
    "Net Load Imbalance" and "Positive Net Balance" (the first exactly when
    netBalance < 0), and between one and three advisories in all. *)
Theorem recommendations_balance_advisory (s : MonthSummary.t num)
  (events : list (EnergyEvent num)) :
  let recs := recommendations s events in
  (countTitled "Net Load Imbalance" recs + countTitled "Positive Net Balance" recs = 1)%nat
  /\ (countTitled "Net Load Imbalance" recs = 1%nat
      <-> num_lt (MonthSummary.netBalance s) (int 0) = true)
  /\ (1 <= List.length recs <= 3)%nat.
Proof.
  intros recs. subst recs. unfold recommendations, countTitled.
  destruct (num_lt (MonthSummary.netBalance s) (int 0));
    destruct (num_lt _ (TotalsByType.Demand _));
    destruct (0 <? _)%nat; simpl;
    repeat split; intros; try lia; try reflexivity; try discriminate.
Qed.

(** C3: when some event's date starts with the month key, averageEfficiency
    is [Math.round] of the mean of efficiencyScore over exactly the events
    whose date starts with it; when none does, it is 0. *)
Theorem averageEfficiency_rounded_mean (events : list (EnergyEvent num))
  (visibleMonth : DateFns.Date) :
  let monthKey := DateFns.format_yyyy_MM visibleMonth in
  let matching := filter (fun event => JsString.startsWith (date event) monthKey) events in
  ((exists event, In event events /\ JsString.startsWith (date event) monthKey = true) ->
   MonthSummary.averageEfficiency (summary events visibleMonth)
   = Math_round (mean (map efficiencyScore matching)))
  /\ ((forall event, In event events -> JsString.startsWith (date event) monthKey = false) ->
      MonthSummary.averageEfficiency (summary events visibleMonth) = int 0).
Proof.
  intros monthKey matching. split.
  - intros [event [Hin Hstart]].
    assert (Hm : In event (monthEvents events visibleMonth))
      by (apply filter_In; split; assumption).
    unfold summary; simpl.
    destruct (monthEvents events visibleMonth) as [|e0 rest] eqn:E; [destruct Hm|].
    simpl Nat.ltb. cbv iota.
    rewrite fold_scores. unfold mean, sum.
    subst matching monthKey. fold (monthEvents events visibleMonth).
    rewrite E, length_map. reflexivity.
  - intros Hnone. apply monthEvents_nil_iff in Hnone.
    unfold summary; simpl. rewrite Hnone. reflexivity.
Qed.

End Aggregation.

(** ** Activity Form Controller *)

Section FormController.

Context {num : Type} `{JSNumber num}.

Lemma handleCreateEvent_accepted (now : Z) (st : State num) :
  accepted st = true ->
  handleCreateEvent now st
  = mkState (visibleMonth st)
            (events st ++ [createdEvent now (newEvent st)
                                        (Number (NewEvent.energyKwh (newEvent st)))])
            (activeFilter st)
            (resetDraft (newEvent st)).
Proof.
  unfold accepted, handleCreateEvent. intros Hacc.
  apply andb_true_iff in Hacc. destruct Hacc as [Hm Hb].
  apply negb_true_iff in Hm, Hb. now rewrite Hm, Hb.
Qed.

Lemma handleCreateEvent_refused (now : Z) (st : State num) :
  accepted st = false -> handleCreateEvent now st = st.
Proof.
  unfold accepted, handleCreateEvent. intros Hacc.
  destruct (missingField (newEvent st)); [reflexivity|].
  destruct (badEnergy _); [reflexivity|discriminate].
Qed.

(** C5: a draft whose title is empty or only white space, or whose date or
    energy text is empty, or whose energy text converts to NaN or to a
    number that is at most 0, is refused: the submit handler returns the
    state it was given, so no event is appended and the event list and the
    draft are what they were. *)
Theorem handleCreateEvent_rejects (now : Z) (st : State num) :
  let draft := newEvent st in
  JsString.whitespaceOnly (NewEvent.title draft) = true
  \/ NewEvent.date draft = ""
  \/ NewEvent.energyKwh draft = ""
  \/ Number_isNaN (Number (NewEvent.energyKwh draft)) = true
  \/ num_le (Number (NewEvent.energyKwh draft)) (int 0) = true ->
  handleCreateEvent now st = st.
Proof.
  intros draft Hbad. apply handleCreateEvent_refused.
  unfold accepted, missingField, badEnergy. fold draft.
  rewrite trim_isEmpty.
  destruct Hbad as [Ht | [Hd | [He | [Hn | Hl]]]].
  - now rewrite Ht.
  - rewrite Hd. simpl. now rewrite orb_true_r.
  - rewrite He. simpl. now rewrite !orb_true_r.
  - rewrite Hn. simpl. now rewrite andb_false_r.
  - rewrite Hl. now rewrite orb_true_r, andb_false_r.
Qed.

(** C7 as amended: whatever is typed into the energy field, the text the
    draft stores holds digits and full stops only; it is the typed text
    with every other character deleted, so it holds as many full stops as
    were typed. *)
Theorem handleChange_energy_numeric (value : string) (st : State num) :
  let stored := NewEvent.energyKwh (newEvent (handleChange "energyKwh" value st)) in
  stored = JsString.replaceNonNumeric value
  /\ JsString.allChars numericChar stored = true
  /\ JsString.countChar "." stored = JsString.countChar "." value.
Proof.
  intros stored. subst stored.
  assert (E : NewEvent.energyKwh (newEvent (handleChange "energyKwh" value st))
              = JsString.replaceNonNumeric value)
    by (unfold handleChange; simpl; destruct (newEvent st); reflexivity).
  rewrite E. split; [reflexivity|].
  split; [apply replaceNonNumeric_numeric | apply replaceNonNumeric_points].
Qed.

(** Whatever the arithmetic, the rounding can be read inside the
    conditional: the score is the minimum with 100 of the maximum with 40
    of 80 (above 500) or of the rounded 90 - e/10, as soon as rounding
    leaves the literal 80 alone. *)
Lemma derivedEfficiencyScore_branches (e : num) :
  Math_round (int 80) = int 80 ->
  derivedEfficiencyScore e
  = Math_min (int 100)
      (Math_max (int 40)
         (if num_lt (int 500) e
          then int 80
          else Math_round (num_sub (int 90) (num_div e (int 10))))).
Proof.
  intros H80. unfold derivedEfficiencyScore.
  destruct (num_lt (int 500) e); [now rewrite H80 | reflexivity].
Qed.

(** C9: an accepted submission leaves the draft's start and end time at
    "08:00" and "09:00", whatever the submitted draft held, while the
    category, the date and the status stay as submitted. *)
Theorem handleCreateEvent_resets_times (now : Z) (st : State num) :
  accepted st = true ->
  let draft' := newEvent (handleCreateEvent now st) in
  NewEvent.startTime draft' = "08:00"
  /\ NewEvent.endTime draft' = "09:00"
  /\ NewEvent.type draft' = NewEvent.type (newEvent st)
  /\ NewEvent.date draft' = NewEvent.date (newEvent st)
  /\ NewEvent.status draft' = NewEvent.status (newEvent st).
Proof.
  intros Hacc draft'. subst draft'.
  rewrite (handleCreateEvent_accepted now st Hacc). repeat split.
Qed.

End FormController.

(** ** Rounding to binary64 *)

Section Rounding.

Import Binary64.

Local Open Scope Q_scope.

Lemma pow2_nonneg_exponent (k : Z) : (0 <= k)%Z -> pow2 k = inject_Z (2 ^ k).
Proof. intros Hk. unfold pow2. destruct (Z.leb_spec 0 k); [reflexivity | lia]. Qed.

Lemma pow2_negative_exponent (k : Z) : (k < 0)%Z -> pow2 k = 1 # Z.to_pos (2 ^ (- k)).
Proof. intros Hk. unfold pow2. destruct (Z.leb_spec 0 k); [lia | reflexivity]. Qed.

Lemma pow2_pos (k : Z) : 0 < pow2 k.
Proof.
  unfold pow2. destruct (Z.leb_spec 0 k).
  - unfold Qlt; simpl. pose proof (Z.pow_pos_nonneg 2 k). lia.
  - reflexivity.
Qed.

Lemma pow2_mono (j k : Z) : (j <= k)%Z -> pow2 j <= pow2 k.
Proof.
  intros Hjk. unfold pow2.
  destruct (Z.leb_spec 0 j), (Z.leb_spec 0 k); try lia; unfold Qle; simpl.
  - pose proof (Z.pow_le_mono_r 2 j k). lia.
  - pose proof (Z.pow_pos_nonneg 2 k). pose proof (Z.pow_pos_nonneg 2 (- j)).
    rewrite Z2Pos.id by lia. nia.
  - pose proof (Z.pow_pos_nonneg 2 (- k)). pose proof (Z.pow_pos_nonneg 2 (- j)).
    pose proof (Z.pow_le_mono_r 2 (- k) (- j)).
    rewrite !Z2Pos.id by lia. lia.
Qed.

(** [pow2] turns sums of exponents into products. *)
Lemma pow2_Qpower (k : Z) : pow2 k == 2 ^ k.
Proof.
  destruct (Z_le_gt_dec 0 k) as [Hk | Hk].
  - rewrite pow2_nonneg_exponent by exact Hk. now apply Zpower_Qpower.
  - rewrite pow2_negative_exponent by lia.
    replace k with (- (- k))%Z at 2 by lia. rewrite Qpower_opp.
    rewrite <- (Zpower_Qpower 2 (- k)) by lia.
    pose proof (Z.pow_pos_nonneg 2 (- k) ltac:(lia) ltac:(lia)) as HM.
    destruct (2 ^ (- k))%Z as [|m|m]; try lia. reflexivity.
Qed.

Lemma pow2_add (j k : Z) : pow2 (j + k) == pow2 j * pow2 k.
Proof.
  rewrite !pow2_Qpower. apply Qpower_plus. discriminate.
Qed.

(** [2 ^ ilog2 a] is at most [a], which is below [2 ^ (ilog2 a + 1)]. *)
Lemma ilog2_spec (a : Q) : 0 < a -> pow2 (ilog2 a) <= a < pow2 (ilog2 a + 1).
Proof.
  intros Ha. unfold ilog2.
  set (k := (Z.log2 (Qnum a) - Z.log2 (Z.pos (Qden a)))%Z).
  assert (Hk : pow2 (k - 1) <= a < pow2 (k + 1)).
  { subst k. destruct a as [n d]. unfold Qlt in Ha; simpl in Ha. simpl Qnum. simpl Qden.
    assert (Hn : (0 < n)%Z) by lia.
    destruct (Z.log2_spec n Hn) as [Hn1 Hn2].
    destruct (Z.log2_spec (Z.pos d) ltac:(lia)) as [Hd1 Hd2].
    pose proof (Z.log2_nonneg n) as Hla. pose proof (Z.log2_nonneg (Z.pos d)) as Hlb.
    set (la := Z.log2 n) in *. set (lb := Z.log2 (Z.pos d)) in *.
    split.
    - unfold pow2. destruct (Z.leb_spec 0 (la - lb - 1)); unfold Qle; simpl.
      + replace la with ((la - lb - 1) + Z.succ lb)%Z in Hn1 by lia.
        rewrite Z.pow_add_r in Hn1 by lia.
        pose proof (Z.pow_pos_nonneg 2 (la - lb - 1)). nia.
      + pose proof (Z.pow_pos_nonneg 2 (- (la - lb - 1))).
        rewrite Z2Pos.id by lia.
        replace (Z.succ lb) with (la + - (la - lb - 1))%Z in Hd2 by lia.
        rewrite Z.pow_add_r in Hd2 by lia. nia.
    - unfold pow2. destruct (Z.leb_spec 0 (la - lb + 1)); unfold Qlt; simpl.
      + replace (Z.succ la) with ((la - lb + 1) + lb)%Z in Hn2 by lia.
        rewrite Z.pow_add_r in Hn2 by lia.
        pose proof (Z.pow_pos_nonneg 2 (la - lb + 1)). nia.
      + pose proof (Z.pow_pos_nonneg 2 (- (la - lb + 1))).
        rewrite Z2Pos.id by lia.
        replace lb with (Z.succ la + - (la - lb + 1))%Z in Hd1 by lia.
        rewrite Z.pow_add_r in Hd1 by lia. nia. }
  destruct (Qle_bool (pow2 k) a) eqn:E.
  - apply Qle_bool_iff in E. tauto.
  - replace (k - 1 + 1)%Z with k by lia. split; [tauto|].
    apply Qnot_le_lt. intros Hc. apply Qle_bool_iff in Hc. congruence.
Qed.

(** The integer the rounding picks is the floor or the one above it, and
    the one above only from the half on. *)
Lemma roundHalfEven_cases (x : Q) :
  (roundHalfEven x = Qfloor x /\ x <= inject_Z (Qfloor x) + (1 # 2))
  \/ (roundHalfEven x = (Qfloor x + 1)%Z /\ inject_Z (Qfloor x) + (1 # 2) <= x).
Proof.
  unfold roundHalfEven.
  destruct (Qcompare_spec (x - inject_Z (Qfloor x)) (1 # 2)) as [Heq | Hlt | Hgt].
  - destruct (Z.even (Qfloor x)); [left | right]; (split; [reflexivity | lra]).
  - left. split; [reflexivity | lra].
  - right. split; [reflexivity | lra].
Qed.

Lemma roundHalfEven_le (x : Q) (k : Z) : x <= inject_Z k -> (roundHalfEven x <= k)%Z.
Proof.
  intros Hx.
  assert (Hf : (Qfloor x <= k)%Z).
  { rewrite <- (Qfloor_Z k). now apply Qfloor_resp_le. }
  destruct (roundHalfEven_cases x) as [[-> _] | [-> Hhalf]]; [exact Hf|].
  assert (Hlt : inject_Z (Qfloor x) < inject_Z k) by lra.
  rewrite <- Zlt_Qlt in Hlt. lia.
Qed.

Lemma roundHalfEven_ge (x : Q) (k : Z) : inject_Z k <= x -> (k <= roundHalfEven x)%Z.
Proof.
  intros Hx.
  assert (Hf : (k <= Qfloor x)%Z).
  { rewrite <- (Qfloor_Z k). now apply Qfloor_resp_le. }
  destruct (roundHalfEven_cases x) as [[-> _] | [-> _]]; lia.
Qed.

(** Rounding to the nearest integer keeps the order. *)
Lemma roundHalfEven_mono (x y : Q) : x <= y -> (roundHalfEven x <= roundHalfEven y)%Z.
Proof.
  intros Hxy.
  pose proof (Qfloor_resp_le x y Hxy) as Hf.
  destruct (Z.eq_dec (Qfloor x) (Qfloor y)) as [Heq | Hne].
  - unfold roundHalfEven. rewrite <- Heq.
    destruct (Qcompare_spec (x - inject_Z (Qfloor x)) (1 # 2)),
             (Qcompare_spec (y - inject_Z (Qfloor x)) (1 # 2));
      try destruct (Z.even (Qfloor x)); try lia; lra.
  - apply Z.le_trans with (Qfloor y); [|apply roundHalfEven_ge, Qfloor_le].
    destruct (roundHalfEven_cases x) as [[-> _] | [-> _]]; lia.
Qed.

Lemma Qred_nonneg (q : Q) : 0 <= q -> 0 <= Qred q.
Proof.
  intros Hq. apply Qle_trans with q; [exact Hq|].
  apply Qle_lteq. right. symmetry. apply Qred_correct.
Qed.

Lemma nearestPositive_value (a : Q) :
  nearestPositive a
  = if Qle_bool (pow2 1024) (nearestValue a) then None else Some (Qred (nearestValue a)).
Proof. reflexivity. Qed.

(** A multiple of the spacing above [a] is above the nearest double. *)
Lemma nearestValue_le (a : Q) (m : Z) :
  (ulpExponent a <= m)%Z -> a <= pow2 m -> nearestValue a <= pow2 m.
Proof.
  intros Hm Ha. unfold nearestValue. set (e := ulpExponent a) in *.
  assert (Hsplit : pow2 m == pow2 (m - e) * pow2 e)
    by (rewrite <- pow2_add; now replace (m - e + e)%Z with m by lia).
  rewrite Hsplit. apply Qmult_le_compat_r; [|apply Qlt_le_weak, pow2_pos].
  rewrite (pow2_nonneg_exponent (m - e)) by lia. rewrite <- Zle_Qle.
  apply roundHalfEven_le. rewrite <- (pow2_nonneg_exponent (m - e)) by lia.
  apply Qle_shift_div_r; [apply pow2_pos|]. now rewrite <- Hsplit.
Qed.

Lemma nearestValue_ge (a : Q) (m : Z) :
  (ulpExponent a <= m)%Z -> pow2 m <= a -> pow2 m <= nearestValue a.
Proof.
  intros Hm Ha. unfold nearestValue. set (e := ulpExponent a) in *.
  assert (Hsplit : pow2 m == pow2 (m - e) * pow2 e)
    by (rewrite <- pow2_add; now replace (m - e + e)%Z with m by lia).
  rewrite Hsplit. apply Qmult_le_compat_r; [|apply Qlt_le_weak, pow2_pos].
  rewrite (pow2_nonneg_exponent (m - e)) by lia. rewrite <- Zle_Qle.
  apply roundHalfEven_ge. rewrite <- (pow2_nonneg_exponent (m - e)) by lia.
  apply Qle_shift_div_l; [apply pow2_pos|]. now rewrite <- Hsplit.
Qed.

Lemma nearestValue_nonneg (a : Q) : 0 < a -> 0 <= nearestValue a.
Proof.
  intros Ha. unfold nearestValue.
  apply Qmult_le_0_compat; [|apply Qlt_le_weak, pow2_pos].
  change 0 with (inject_Z 0). rewrite <- Zle_Qle.
  apply roundHalfEven_ge. apply Qle_shift_div_l; [apply pow2_pos|].
  change (inject_Z 0) with 0. lra.
Qed.

Lemma ilog2_mono (a b : Q) : 0 < a -> a <= b -> (ilog2 a <= ilog2 b)%Z.
Proof.
  intros Ha Hab.
  destruct (ilog2_spec a Ha) as [Ha1 _].
  destruct (ilog2_spec b ltac:(lra)) as [_ Hb2].
  destruct (Z_le_gt_dec (ilog2 a) (ilog2 b)) as [Hle | Hgt]; [exact Hle|].
  pose proof (pow2_mono (ilog2 b + 1) (ilog2 a) ltac:(lia)). lra.
Qed.

(** Rounding to the nearest double keeps the order. *)
Lemma nearestValue_mono (a b : Q) : 0 < a -> a <= b -> nearestValue a <= nearestValue b.
Proof.
  intros Ha Hab.
  assert (Hb : 0 < b) by lra.
  pose proof (ilog2_mono a b Ha Hab) as Hlog.
  destruct (Z.eq_dec (ulpExponent a) (ulpExponent b)) as [Heq | Hne].
  - unfold nearestValue. rewrite Heq.
    apply Qmult_le_compat_r; [|apply Qlt_le_weak, pow2_pos].
    rewrite <- Zle_Qle. apply roundHalfEven_mono.
    apply Qmult_le_compat_r; [exact Hab|].
    apply Qlt_le_weak, Qinv_lt_0_compat, pow2_pos.
  - assert (He : (ulpExponent a < ulpExponent b)%Z) by (unfold ulpExponent in *; lia).
    set (m := Z.max (ilog2 a + 1) (ulpExponent a)).
    apply Qle_trans with (pow2 m).
    + apply nearestValue_le; [lia|].
      destruct (ilog2_spec a Ha) as [_ Ha2].
      pose proof (pow2_mono (ilog2 a + 1) m ltac:(lia)). lra.
    + apply Qle_trans with (pow2 (ilog2 b)).
      * apply pow2_mono. unfold ulpExponent in *. lia.
      * apply nearestValue_ge; [unfold ulpExponent in *; lia|].
        now destruct (ilog2_spec b Hb).
Qed.

(** An integer below [2^53] is a double: rounding does not cross it. *)
Lemma nearestValue_integer_le (a : Q) (c : Z) :
  0 < a -> a <= inject_Z c -> (c < 2 ^ 53)%Z -> nearestValue a <= inject_Z c.
Proof.
  intros Ha Hac Hc.
  destruct (ilog2_spec a Ha) as [Hlow _].
  assert (He : (ulpExponent a <= 0)%Z).
  { unfold ulpExponent.
    destruct (Z_lt_le_dec (ilog2 a) 53) as [Hl | Hl]; [lia|].
    pose proof (pow2_mono 53 (ilog2 a) Hl) as Hmono.
    rewrite (pow2_nonneg_exponent 53) in Hmono by lia.
    assert (inject_Z c < inject_Z (2 ^ 53)) by (rewrite <- Zlt_Qlt; exact Hc).
    lra. }
  unfold nearestValue. set (e := ulpExponent a) in *.
  assert (Hunit : pow2 (- e) * pow2 e == 1)
    by (rewrite <- pow2_add; now replace (- e + e)%Z with 0%Z by lia).
  assert (Hc' : inject_Z c == inject_Z (c * 2 ^ (- e)) * pow2 e).
  { rewrite inject_Z_mult, <- (pow2_nonneg_exponent (- e)) by lia.
    rewrite <- Qmult_assoc, Hunit. ring. }
  rewrite Hc'. apply Qmult_le_compat_r; [|apply Qlt_le_weak, pow2_pos].
  rewrite <- Zle_Qle. apply roundHalfEven_le.
  apply Qle_shift_div_r; [apply pow2_pos|]. now rewrite <- Hc'.
Qed.

Lemma nearestValue_integer_ge (a : Q) (c : Z) :
  inject_Z c <= a -> 0 < a -> a < inject_Z (2 ^ 53) -> inject_Z c <= nearestValue a.
Proof.
  intros Hca Ha Hc.
  destruct (ilog2_spec a Ha) as [Hlow _].
  assert (He : (ulpExponent a <= 0)%Z).
  { unfold ulpExponent.
    destruct (Z_lt_le_dec (ilog2 a) 53) as [Hl | Hl]; [lia|].
    pose proof (pow2_mono 53 (ilog2 a) Hl) as Hmono.
    rewrite (pow2_nonneg_exponent 53) in Hmono by lia. lra. }
  unfold nearestValue. set (e := ulpExponent a) in *.
  assert (Hunit : pow2 (- e) * pow2 e == 1)
    by (rewrite <- pow2_add; now replace (- e + e)%Z with 0%Z by lia).
  assert (Hc' : inject_Z c == inject_Z (c * 2 ^ (- e)) * pow2 e).
  { rewrite inject_Z_mult, <- (pow2_nonneg_exponent (- e)) by lia.
    rewrite <- Qmult_assoc, Hunit. ring. }
  rewrite Hc'. apply Qmult_le_compat_r; [|apply Qlt_le_weak, pow2_pos].
  rewrite <- Zle_Qle. apply roundHalfEven_ge.
  apply Qle_shift_div_l; [apply pow2_pos|]. now rewrite <- Hc'.
Qed.

(** A positive rational between two integers below [2^53] has a nearest
    double, and it lies between them too. *)
Lemma nearestPositive_between (a : Q) (lo hi : Z) :
  0 < a -> inject_Z lo <= a -> a <= inject_Z hi -> (hi < 2 ^ 53)%Z ->
  exists v, nearestPositive a = Some v /\ inject_Z lo <= v <= inject_Z hi
            /\ v == nearestValue a.
Proof.
  intros Ha Hlo Hhi Hbig.
  assert (H53 : inject_Z hi < inject_Z (2 ^ 53)) by (rewrite <- Zlt_Qlt; exact Hbig).
  pose proof (nearestValue_integer_le a hi Ha Hhi Hbig) as Hle.
  pose proof (nearestValue_integer_ge a lo Hlo Ha ltac:(lra)) as Hge.
  rewrite nearestPositive_value.
  assert (Hsmall : Qle_bool (pow2 1024) (nearestValue a) = false).
  { destruct (Qle_bool (pow2 1024) (nearestValue a)) eqn:E; [|reflexivity].
    apply Qle_bool_iff in E.
    pose proof (pow2_mono 53 1024 ltac:(lia)) as Hmono.
    rewrite (pow2_nonneg_exponent 53) in Hmono by lia. lra. }
  rewrite Hsmall. eexists. split; [reflexivity|].
  pose proof (Qred_correct (nearestValue a)) as Hred.
  split; [|exact Hred]. rewrite Hred. split; assumption.
Qed.

(** Rounding a number that is not negative gives one that is not
    negative. *)
Lemma round_nonneg (q : Q) :
  0 <= q ->
  round (Finite q) = Infinity \/ exists v, round (Finite q) = Finite v /\ 0 <= v.
Proof.
  intros Hq. unfold round.
  destruct (Qcompare_spec q 0) as [Heq | Hlt | Hgt]; [|lra|].
  - right. exists 0. split; [reflexivity | lra].
  - rewrite nearestPositive_value.
    destruct (Qle_bool _ _); [now left|]. right. eexists. split; [reflexivity|].
    apply Qred_nonneg, nearestValue_nonneg, Hgt.
Qed.

(** The nearest double does not depend on how the fraction is written. *)
Lemma nearestValue_comp (a b : Q) : 0 < a -> a == b -> nearestValue a == nearestValue b.
Proof.
  intros Ha Hab. apply Qle_antisym; apply nearestValue_mono; lra.
Qed.

(** A positive rational between two integers below [2^53] rounds to a
    double between them. *)
Lemma round_between (a : Q) (lo hi : Z) :
  0 < a -> inject_Z lo <= a -> a <= inject_Z hi -> (hi < 2 ^ 53)%Z ->
  exists v, round (Finite a) = Finite v /\ inject_Z lo <= v <= inject_Z hi
            /\ v == nearestValue a.
Proof.
  intros Ha Hlo Hhi Hbig.
  destruct (nearestPositive_between a lo hi Ha Hlo Hhi Hbig) as [v [Hv Hrange]].
  exists v. split; [|exact Hrange]. unfold round.
  destruct (Qcompare_spec a 0) as [Heq | Hlt | Hgt]; try lra. now rewrite Hv.
Qed.

End Rounding.

(** ** The derived efficiency score *)

Lemma lt_Finite_Z (a b : Z) :
  Exact.lt (Finite (inject_Z a)) (Finite (inject_Z b)) = (a <? b)%Z.
Proof.
  unfold Exact.lt, Qle_bool; simpl. rewrite !Z.mul_1_r.
  destruct (Z.leb_spec b a), (Z.ltb_spec a b); simpl; try reflexivity; lia.
Qed.

(** The literals of line 292, and 0 and 70, are doubles. *)
Lemma int_double (z : Z) :
  In z [0; 10; 40; 70; 80; 90; 100; 500]%Z -> (int z : double) = Double (Finite (inject_Z z)).
Proof.
  simpl. intros Hz.
  repeat (destruct Hz as [<- | Hz]; [vm_compute; reflexivity|]). destruct Hz.
Qed.

Ltac literals :=
  rewrite ?(int_double 0), ?(int_double 10), ?(int_double 40), ?(int_double 70),
    ?(int_double 80), ?(int_double 90), ?(int_double 100), ?(int_double 500)
    by (simpl; tauto).

(** [Math.max(40, z)] and [Math.min(100, z)] on an integer from 40 to
    100. *)
Lemma max_40_integer (z : Z) :
  (40 <= z)%Z ->
  Exact.max (Finite (inject_Z 40)) (Finite (inject_Z z)) = Finite (inject_Z z).
Proof.
  intros Hz. unfold Exact.max. cbn [Exact.isNaN orb]. rewrite lt_Finite_Z.
  destruct (Z.ltb_spec 40 z); [reflexivity|].
  assert (z = 40%Z) by lia. subst z. reflexivity.
Qed.

Lemma min_100_integer (z : Z) :
  (z <= 100)%Z ->
  Exact.min (Finite (inject_Z 100)) (Finite (inject_Z z)) = Finite (inject_Z z).
Proof.
  intros Hz. unfold Exact.min. cbn [Exact.isNaN orb]. rewrite lt_Finite_Z.
  destruct (Z.ltb_spec z 100); [reflexivity|].
  assert (z = 100%Z) by lia. subst z. reflexivity.
Qed.

(** [Math.min(100, Math.max(40, .))] is the clamp to [40, 100] on every
    value [Math.round] returns. *)
Lemma clamp_rounded (a : double) :
  Math_min (int 100) (Math_max (int 40) (Math_round a))
  = clampTo (int 40) (int 100) (Math_round a).
Proof.
  unfold clampTo. literals.
  cbn [Math_min Math_max Math_round num_lt double_JSNumber exactValue].
  destruct (exactValue a) as [| | q |]; try reflexivity.
  cbn [Exact.round]. generalize (Qfloor (q + (1 # 2))). intros z.
  unfold Exact.min, Exact.max. cbn [Exact.isNaN orb]. rewrite !lt_Finite_Z.
  destruct (Z.ltb_spec 40 z), (Z.ltb_spec z 40); try lia;
    cbn [Exact.isNaN orb]; rewrite ?lt_Finite_Z.
  - destruct (Z.ltb_spec z 100), (Z.ltb_spec 100 z); try lia; try reflexivity.
    assert (z = 100%Z) by lia. now subst.
  - reflexivity.
  - assert (z = 40%Z) by lia. now subst.
Qed.

Lemma derivedEfficiencyScore_specified (e : double) :
  derivedEfficiencyScore e = specifiedScore e.
Proof.
  unfold derivedEfficiencyScore, specifiedScore.
  destruct (num_lt (int 500) e).
  - vm_compute. reflexivity.
  - apply clamp_rounded.
Qed.

Section ScoreOnDoubles.

Import Binary64.

Local Open Scope Q_scope.

(** For an energy from above 0 up to 500 the score is the integer nearest
    to the double nearest to 90 minus the double nearest to e/10; it lies
    between 40 and 90, and the minimum with 100 is idle. *)
Lemma score_low (q : Q) :
  0 < q -> q <= 500 ->
  exists z : Z,
    derivedEfficiencyScore (Double (Finite q)) = Double (Finite (inject_Z z))
    /\ (40 <= z <= 90)%Z
    /\ z = Qfloor (nearestValue (90 - nearestValue (q / 10)) + (1 # 2))
    /\ derivedEfficiencyScore (Double (Finite q))
       = Math_max (int 40)
           (Math_round (num_sub (int 90) (num_div (Double (Finite q)) (int 10)))).
Proof.
  intros Hpos Hle.
  assert (Hdiv : 0 < q / 10 /\ q / 10 <= 50).
  { unfold Qdiv. change (/ 10) with (1 # 10). split; lra. }
  destruct Hdiv as [Hd0 Hd50].
  pose proof (Qred_correct (q / 10)) as Hredd.
  destruct (round_between (Qred (q / 10)) 0 50) as [v [Hv [[Hv0 Hv50] Hvn]]];
    [lra | change (inject_Z 0) with 0; lra | change (inject_Z 50) with 50; lra | lia |].
  change (inject_Z 0) with 0 in Hv0. change (inject_Z 50) with 50 in Hv50.
  set (w := Qred (90 + Qred (- v))).
  assert (Hw : w == 90 - v).
  { unfold w. rewrite !Qred_correct. ring. }
  destruct (round_between w 40 90) as [x [Hx [[Hx40 Hx90] Hxn]]];
    [lra | change (inject_Z 40) with 40; lra | change (inject_Z 90) with 90; lra | lia |].
  change (inject_Z 40) with 40 in Hx40. change (inject_Z 90) with 90 in Hx90.
  set (z := Qfloor (x + (1 # 2))).
  assert (Hz : (40 <= z <= 90)%Z).
  { unfold z. split.
    - change 40%Z with (Qfloor (40 # 1)) at 1. apply Qfloor_resp_le. lra.
    - change 90%Z with (Qfloor (181 # 2)). apply Qfloor_resp_le. lra. }
  assert (Hscore : Math_round (num_sub (int 90) (num_div (Double (Finite q)) (int 10)))
                   = Double (Finite (inject_Z z))).
  { literals. cbn [Math_round num_sub num_div double_JSNumber]. unfold double2.
    cbn [exactValue]. unfold Exact.div. change (Qeq_bool (inject_Z 10) 0) with false.
    cbv iota. unfold Exact.fin.
    change (inject_Z 10) with 10. rewrite Hv.
    change (Exact.sub (Finite (inject_Z 90)) (Finite v)) with (Finite w).
    rewrite Hx. reflexivity. }
  assert (Hlt : num_lt (int 500) (Double (Finite q)) = false).
  { literals. cbn [num_lt double_JSNumber exactValue Exact.lt].
    apply negb_false_iff, Qle_bool_iff. exact Hle. }
  exists z. unfold derivedEfficiencyScore. rewrite Hlt, Hscore. literals.
  cbn [Math_min Math_max double_JSNumber exactValue].
  rewrite (max_40_integer z) by lia. rewrite (min_100_integer z) by lia.
  repeat split; try lia.
  unfold z. apply Qfloor_comp.
  assert (Hvq : v == nearestValue (q / 10)).
  { rewrite Hvn. apply nearestValue_comp; lra. }
  rewrite Hxn. rewrite (nearestValue_comp w (90 - nearestValue (q / 10))); [reflexivity | lra |].
  rewrite Hw, Hvq. reflexivity.
Qed.

(** Above 500, and at Infinity, the score is 80. *)
Lemma score_high (e : double) :
  num_lt (int 500) e = true ->
  derivedEfficiencyScore e = Double (Finite (inject_Z 80))
  /\ derivedEfficiencyScore e
     = Math_max (int 40) (Math_round (int 80)).
Proof.
  intros Hlt. unfold derivedEfficiencyScore. rewrite Hlt.
  split; vm_compute; reflexivity.
Qed.

(** A number that passes the second guard is above 0. *)
Lemma positive_of_not_bad (e : double) :
  badEnergy e = false -> Number_isNaN e = false /\ num_lt (int 0) e = true.
Proof.
  unfold badEnergy. literals.
  cbn [Number_isNaN num_le num_lt double_JSNumber].
  destruct (exactValue e) as [| | q |]; simpl; try discriminate; auto.
  intros Hq. split; [reflexivity|]. now rewrite Hq.
Qed.

Lemma positive_finite (q : Q) :
  num_lt (int 0) (Double (Finite q)) = true -> 0 < q.
Proof.
  literals. cbn [num_lt double_JSNumber exactValue Exact.lt].
  intros Hq. apply negb_true_iff in Hq.
  apply Qnot_le_lt. intros Hc. apply Qle_bool_iff in Hc.
  change (inject_Z 0) with 0 in Hq. congruence.
Qed.

Lemma not_above_500 (q : Q) :
  num_lt (int 500) (Double (Finite q)) = false -> q <= 500.
Proof.
  literals. cbn [num_lt double_JSNumber exactValue Exact.lt].
  intros Hq. apply negb_false_iff in Hq. now apply Qle_bool_iff in Hq.
Qed.

Lemma finite_of_bounds (e : double) :
  Number_isNaN e = false -> num_lt (int 0) e = true -> num_lt (int 500) e = false ->
  exists q : Q, e = Double (Finite q).
Proof.
  literals. cbn [Number_isNaN num_lt double_JSNumber].
  destruct e as [[| | q |]]; cbn [exactValue Exact.isNaN Exact.lt];
    try discriminate. intros _ _ _. now exists q.
Qed.

(** The score of every number above 0. *)
Lemma score_range (e : double) :
  Number_isNaN e = false -> num_lt (int 0) e = true ->
  exists z : Z,
    derivedEfficiencyScore e = Double (Finite (inject_Z z)) /\ (40 <= z <= 90)%Z
    /\ derivedEfficiencyScore e
       = Math_max (int 40)
           (Math_round (if num_lt (int 500) e then int 80
                        else num_sub (int 90) (num_div e (int 10)))).
Proof.
  intros Hnan Hpos.
  destruct (num_lt (int 500) e) eqn:E.
  - destruct (score_high e E) as [H80 Hmax]. exists 80%Z. repeat split; try lia; assumption.
  - destruct (finite_of_bounds e Hnan Hpos E) as [q ->].
    destruct (score_low q (positive_finite q Hpos) (not_above_500 q E))
      as [z [Hz [Hrange [_ Hmax]]]].
    exists z. repeat split; try lia; assumption.
Qed.

End ScoreOnDoubles.

Section Accepted.

Context {num : Type} `{JSNumber num}.

Lemma accepted_energy (st : State num) :
  accepted st = true ->
  badEnergy (Number (NewEvent.energyKwh (newEvent st))) = false.
Proof.
  unfold accepted. intros Hacc. apply andb_true_iff in Hacc.
  destruct Hacc as [_ Hb]. now apply negb_true_iff in Hb.
Qed.

End Accepted.

(** C6: the event an accepted submission appends carries the parsed
    energy e and the score (if e > 500 then 80 else round(90 - e/10))
    clamped to [40, 100], each operation on doubles; the energies 600, 100
    and 50 give the scores 80, 80 and 85. *)
Theorem created_efficiencyScore :
  (forall (now : Z) (st : State double),
      accepted st = true ->
      let e := Number (NewEvent.energyKwh (newEvent st)) in
      let created := createdEvent now (newEvent st) e in
      events (handleCreateEvent now st) = events st ++ [created]
      /\ energyKwh created = e
      /\ efficiencyScore created = specifiedScore e)
  /\ derivedEfficiencyScore (int 600 : double) = int 80
  /\ derivedEfficiencyScore (int 100 : double) = int 80
  /\ derivedEfficiencyScore (int 50 : double) = int 85.
Proof.
  split; [|repeat split; vm_compute; reflexivity].
  intros now st Hacc e created.
  rewrite (handleCreateEvent_accepted now st Hacc).
  repeat split. apply derivedEfficiencyScore_specified.
Qed.

(** C10: the score an accepted submission derives, on doubles, is an
    integer between 40 and 90, and taking the minimum with 100 changes
    nothing: the score of the appended event is already
    [Math.max(40, Math.round(...))]. *)
Theorem derived_score_at_most_90 (now : Z) (st : State double) :
  accepted st = true ->
  let e := Number (NewEvent.energyKwh (newEvent st)) in
  let created := createdEvent now (newEvent st) e in
  events (handleCreateEvent now st) = events st ++ [created]
  /\ exists z : Z,
       efficiencyScore created = Double (Finite (inject_Z z)) /\ (40 <= z <= 90)%Z
       /\ efficiencyScore created
          = Math_max (int 40)
              (Math_round (if num_lt (int 500) e then int 80
                           else num_sub (int 90) (num_div e (int 10)))).
Proof.
  intros Hacc e created.
  split; [now rewrite (handleCreateEvent_accepted now st Hacc)|].
  destruct (positive_of_not_bad e (accepted_energy st Hacc)) as [Hnan Hpos].
  exact (score_range e Hnan Hpos).
Qed.

(** ** The form controller on the sample states *)

(** The text "abc" converts to NaN, and submitting it changes nothing. *)
Lemma handleCreateEvent_rejects_abc :
  Number_isNaN (Number (NewEvent.energyKwh (newEvent (drafted "Load test" "abc")))) = true
  /\ handleCreateEvent clock (drafted "Load test" "abc")
     = drafted "Load test" "abc".
Proof.
  split; [reflexivity|].
  apply (handleCreateEvent_rejects clock (drafted "Load test" "abc")).
  right; right; right; left. reflexivity.
Defined.

(** The draft submitted with the times 10:15 and 11:45 is accepted and
    comes back with the default times. *)
Lemma handleCreateEvent_resets_times_sample :
  accepted (drafted "Load test" "100") = true
  /\ NewEvent.startTime (newEvent (drafted "Load test" "100")) = "10:15"
  /\ NewEvent.startTime
       (newEvent (handleCreateEvent clock (drafted "Load test" "100"))) = "08:00"
  /\ NewEvent.endTime
       (newEvent (handleCreateEvent clock (drafted "Load test" "100"))) = "09:00".
Proof.
  split; [reflexivity|]. split; [reflexivity|].
  pose proof (handleCreateEvent_resets_times clock (drafted "Load test" "100")
                eq_refl) as Hreset.
  split; [exact (proj1 Hreset) | exact (proj1 (proj2 Hreset))].
Defined.

(** Submitting the energy text "50" appends an event of score 85. *)
Lemma created_efficiencyScore_sample :
  accepted (filled "Load test" "50") = true
  /\ efficiencyScore
       (createdEvent clock (newEvent (filled "Load test" "50")) (Number "50"))
     = Double (Finite 85).
Proof.
  assert (Hacc : accepted (filled "Load test" "50") = true) by (vm_compute; reflexivity).
  split; [exact Hacc|].
  destruct (proj1 created_efficiencyScore clock (filled "Load test" "50") Hacc)
    as [_ [_ Hscore]].
  refine (eq_trans Hscore _). vm_compute. reflexivity.
Defined.

(** Submitting the energy text "5.000000000000001" derives the score 90:
    90 - e/10 is the double 89.5, which [Math.round] takes to 90. *)
Lemma derived_score_at_most_90_sample :
  accepted (filled "Load test" "5.000000000000001") = true
  /\ efficiencyScore
       (createdEvent clock (newEvent (filled "Load test" "5.000000000000001"))
                     (Number "5.000000000000001"))
     = Double (Finite 90)
  /\ exists z : Z,
       efficiencyScore
         (createdEvent clock (newEvent (filled "Load test" "5.000000000000001"))
                       (Number "5.000000000000001"))
       = Double (Finite (inject_Z z)) /\ (40 <= z <= 90)%Z.
Proof.
  assert (Hacc : accepted (filled "Load test" "5.000000000000001") = true)
    by (vm_compute; reflexivity).
  split; [exact Hacc|]. split; [vm_compute; reflexivity|].
  destruct (derived_score_at_most_90 clock (filled "Load test" "5.000000000000001") Hacc)
    as [_ [z [Hz [Hrange _]]]].
  exists z. split; assumption.
Defined.

(** C7 as stated fails: the filter deletes letters, not full stops, so the
    text "1.2.3" is stored whole, with two full stops. *)
Lemma energy_text_keeps_every_point :
  ~ (forall (value : string) (st : State number),
        let stored := NewEvent.energyKwh (newEvent (handleChange "energyKwh" value st)) in
        JsString.allChars numericChar stored = true
        /\ (JsString.countChar "." stored <= 1)%nat).
Proof.
  intros Hall.
  destruct (Hall "1.2.3" seeded) as [_ Hpoints].
  vm_compute in Hpoints. lia.
Qed.

Example energy_text_1_2_3 :
  NewEvent.energyKwh (newEvent (handleChange "energyKwh" "1.2.3" seeded)) = "1.2.3"
  /\ accepted (handleChange "energyKwh" "1.2.3" (drafted "Load test" "")) = false.
Proof. split; reflexivity. Qed.

(** ** Event ids *)

Section Ids.

Context {num : Type} `{JSNumber num}.

(** A step leaves the ids alone or appends the id of the clock reading. *)
Lemma ids_step (st : State num) (a : Action) :
  ids (step st a) = ids st
  \/ exists now, a = Submit now /\ ids (step st a) = (ids st ++ [("event-" ++ JsString.ofInteger now)%string])%list.
Proof.
  destruct a as [field value | now]; simpl.
  - left. reflexivity.
  - destruct (accepted st) eqn:Hacc.
    + right. exists now. split; [reflexivity|].
      rewrite (handleCreateEvent_accepted now st Hacc). unfold ids. simpl.
      rewrite map_app. reflexivity.
    + left. now rewrite (handleCreateEvent_refused now st Hacc).
Qed.

(** C8 as amended: when the clock readings of the submissions are pairwise
    distinct and none of them yields an id already in the store, the ids in
    the store stay pairwise distinct: those of the created events differ
    from each other and from every id that was there before. *)
Theorem ids_distinct (actions : list Action) (st : State num) :
  NoDup (ids st) ->
  NoDup (submitTimes actions) ->
  (forall t, In t (submitTimes actions) ->
             ~ In ("event-" ++ JsString.ofInteger t)%string (ids st)) ->
  NoDup (ids (run actions st)).
Proof.
  revert st. induction actions as [|a rest IH]; intros st Hnd Htimes Hfresh; [exact Hnd|].
  unfold run. simpl fold_left. fold (run rest (step st a)).
  destruct (ids_step st a) as [Hsame | [now [-> Happ]]].
  - apply IH.
    + now rewrite Hsame.
    + destruct a; simpl in Htimes; [assumption | now inversion Htimes].
    + intros t Ht. rewrite Hsame. apply Hfresh.
      destruct a; simpl; [assumption | now right].
  - simpl in Htimes. inversion Htimes as [|? ? Hnotin Hrest]; subst.
    apply IH.
    + rewrite Happ. apply NoDup_app; [ assumption | repeat constructor; intros [] | ].
      intros x Hx [<- | []]. revert Hx. apply Hfresh. simpl. now left.
    + assumption.
    + intros t Ht. rewrite Happ. intros Hin. apply in_app_or in Hin.
      destruct Hin as [Hin | [Heq | []]].
      * revert Hin. apply Hfresh. simpl. now right.
      * injection Heq as Heq. apply ofInteger_inj in Heq. subst. contradiction.
Qed.

End Ids.

Lemma NoDup_seeded : NoDup (ids (drafted "Load test" "100")).
Proof.
  vm_compute. repeat constructor; simpl; intuition discriminate.
Qed.

(** C8 as stated fails: the id is the clock reading, so two submissions
    accepted at one reading append two events with one id. *)
Lemma ids_collide_at_equal_clock :
  NoDup (ids (drafted "Load test" "100"))
  /\ List.length (events (run (twoSubmissions clock clock) (drafted "Load test" "100")))
     = (2 + List.length (events (drafted "Load test" "100")))%nat
  /\ ~ NoDup (ids (run (twoSubmissions clock clock) (drafted "Load test" "100"))).
Proof.
  split; [exact NoDup_seeded|]. split; [reflexivity|].
  intros Hnd. vm_compute in Hnd.
  do 7 (apply NoDup_cons_iff in Hnd; destruct Hnd as [_ Hnd]).
  apply NoDup_cons_iff in Hnd. destruct Hnd as [Hnotin _].
  apply Hnotin. now left.
Qed.

Lemma ids_distinct_sample :
  NoDup (submitTimes (twoSubmissions clock (clock + 1)))
  /\ NoDup (ids (run (twoSubmissions clock (clock + 1)) (drafted "Load test" "100"))).
Proof.
  assert (Htimes : NoDup (submitTimes (twoSubmissions clock (clock + 1)))).
  { vm_compute. repeat constructor; simpl; intuition discriminate. } 
  split; [exact Htimes|].
  apply (ids_distinct (twoSubmissions clock (clock + 1)) (drafted "Load test" "100")).
  - exact NoDup_seeded.
  - exact Htimes.
  - intros t Ht. vm_compute in Ht. 
    destruct Ht as [<- | [<- | []]]; vm_compute; intuition discriminate.
Defined.

(** ** Date-Grid Builder *)

Section DateGrid.

Import DateFns.

Local Open Scope Z_scope.

Lemma isLeapYear_spec (y : Z) :
  isLeapYear y = true <-> (y mod 4 = 0 /\ (y mod 100 <> 0 \/ y mod 400 = 0)).
Proof.
  unfold isLeapYear.
  rewrite andb_true_iff, orb_true_iff, negb_true_iff, !Z.eqb_eq, Z.eqb_neq.
  reflexivity.
Qed.

Lemma daysBeforeYear_succ (y : Z) :
  daysBeforeYear (y + 1) = daysBeforeYear y + yearLength y.
Proof.
  unfold daysBeforeYear, yearLength.
  replace (y + 1 - 1) with y by lia.
  destruct (isLeapYear y) eqn:E.
  - apply isLeapYear_spec in E. Z.to_euclidean_division_equations. lia.
  - assert (Hn : ~ (y mod 4 = 0 /\ (y mod 100 <> 0 \/ y mod 400 = 0))).
    { rewrite <- isLeapYear_spec. congruence. }
    Z.to_euclidean_division_equations. lia.
Qed.

Lemma getDaysInMonth_bounds (y m : Z) : 28 <= getDaysInMonth y m <= 31.
Proof.
  unfold getDaysInMonth.
  destruct (m =? 2); [destruct (isLeapYear y); lia|].
  destruct ((m =? 4) || (m =? 6) || (m =? 9) || (m =? 11)); lia.
Qed.

Ltac month_cases m :=
  assert (m = 1 \/ m = 2 \/ m = 3 \/ m = 4 \/ m = 5 \/ m = 6 \/ m = 7 \/ m = 8
          \/ m = 9 \/ m = 10 \/ m = 11 \/ m = 12) as Hmonth by lia;
  repeat (destruct Hmonth as [Hmonth | Hmonth]); subst m.

Lemma daysBeforeMonth_succ (y m : Z) :
  1 <= m <= 11 ->
  daysBeforeMonth y (m + 1) = daysBeforeMonth y m + getDaysInMonth y m.
Proof.
  intros Hm. month_cases m; try lia;
    unfold daysBeforeMonth, getDaysInMonth; simpl;
    destruct (isLeapYear y); reflexivity.
Qed.

Lemma daysBeforeMonth_december (y : Z) :
  daysBeforeMonth y 12 + 31 = yearLength y.
Proof.
  unfold daysBeforeMonth, yearLength; simpl. destruct (isLeapYear y); reflexivity.
Qed.

Lemma nextDay_spec (d : Date) :
  valid d -> valid (nextDay d) /\ dayNumber (nextDay d) = dayNumber d + 1.
Proof.
  destruct d as [y m k]. unfold valid, nextDay, dayNumber; simpl.
  intros [Hm Hk].
  destruct (Z.ltb_spec k (getDaysInMonth y m)); simpl.
  - repeat split; lia.
  - destruct (Z.ltb_spec m 12); simpl.
    + pose proof (getDaysInMonth_bounds y (m + 1)).
      rewrite daysBeforeMonth_succ by lia. repeat split; lia.
    + assert (m = 12) by lia. subst m.
      rewrite daysBeforeYear_succ, <- daysBeforeMonth_december.
      change (getDaysInMonth y 12) with 31 in *.
      change (getDaysInMonth (y + 1) 1) with 31.
      change (daysBeforeMonth (y + 1) 1) with 0.
      repeat split; lia.
Qed.

Lemma prevDay_spec (d : Date) :
  valid d -> valid (prevDay d) /\ dayNumber (prevDay d) = dayNumber d - 1.
Proof.
  destruct d as [y m k]. unfold valid, prevDay, dayNumber; simpl.
  intros [Hm Hk].
  destruct (Z.ltb_spec 1 k); simpl.
  - repeat split; lia.
  - destruct (Z.ltb_spec 1 m); simpl.
    + pose proof (getDaysInMonth_bounds y (m - 1)).
      pose proof (daysBeforeMonth_succ y (m - 1)) as Hs.
      replace (m - 1 + 1) with m in Hs by lia.
      rewrite Hs by lia. repeat split; lia.
    + assert (m = 1) by lia. subst m.
      pose proof (daysBeforeYear_succ (y - 1)) as Hy.
      replace (y - 1 + 1) with y in Hy by lia.
      rewrite Hy, <- daysBeforeMonth_december.
      change (getDaysInMonth (y - 1) 12) with 31.
      change (daysBeforeMonth y 1) with 0.
      repeat split; lia.
Qed.

Lemma prevDay_nextDay (d : Date) : valid d -> prevDay (nextDay d) = d.
Proof.
  destruct d as [y m k]. unfold valid, prevDay, nextDay; simpl.
  intros [Hm Hk].
  destruct (Z.ltb_spec k (getDaysInMonth y m)); simpl.
  - destruct (Z.ltb_spec 1 (k + 1)); [|lia]. f_equal; lia.
  - destruct (Z.ltb_spec m 12); simpl.
    + destruct (Z.ltb_spec 1 (m + 1)); [|lia].
      replace (m + 1 - 1) with m by lia. f_equal; lia.
    + assert (m = 12) by lia. subst m.
      change (getDaysInMonth y 12) with 31 in *. f_equal; lia.
Qed.

Lemma nextDay_prevDay (d : Date) : valid d -> nextDay (prevDay d) = d.
Proof.
  destruct d as [y m k]. unfold valid, prevDay, nextDay; simpl.
  intros [Hm Hk].
  destruct (Z.ltb_spec 1 k); simpl.
  - destruct (Z.ltb_spec (k - 1) (getDaysInMonth y m)); [|lia]. f_equal; lia.
  - destruct (Z.ltb_spec 1 m); simpl.
    + rewrite Z.ltb_irrefl.
      destruct (Z.ltb_spec (m - 1) 12); [|lia]. f_equal; lia.
    + assert (m = 1) by lia. subst m. simpl. f_equal; lia.
Qed.

Lemma iter_nextDay_spec (n : nat) (d : Date) :
  valid d ->
  valid (Nat.iter n nextDay d)
  /\ dayNumber (Nat.iter n nextDay d) = dayNumber d + Z.of_nat n.
Proof.
  intros Hd. induction n as [|n [IHv IHn]]; simpl Nat.iter; [split; [assumption|lia]|].
  destruct (nextDay_spec _ IHv) as [Hv Hn]. split; [assumption|lia].
Qed.

Lemma iter_prevDay_spec (n : nat) (d : Date) :
  valid d ->
  valid (Nat.iter n prevDay d)
  /\ dayNumber (Nat.iter n prevDay d) = dayNumber d - Z.of_nat n.
Proof.
  intros Hd. induction n as [|n [IHv IHn]]; simpl Nat.iter; [split; [assumption|lia]|].
  destruct (prevDay_spec _ IHv) as [Hv Hn]. split; [assumption|lia].
Qed.

Lemma iter_nextDay_prevDay (n : nat) (d : Date) :
  valid d -> Nat.iter n nextDay (Nat.iter n prevDay d) = d.
Proof.
  intros Hd. induction n as [|n IH]; [reflexivity|].
  rewrite Nat.iter_succ_r. simpl Nat.iter.
  rewrite nextDay_prevDay; [exact IH | apply iter_prevDay_spec, Hd].
Qed.

Lemma getDay_range (d : Date) : 0 <= getDay d < 7.
Proof. unfold getDay. apply Z.mod_pos_bound. lia. Qed.

(** The week of [d] starts [getDay d] days before [d], on a Sunday. *)
Lemma startOfWeek_spec (d : Date) :
  valid d ->
  valid (startOfWeek d 0)
  /\ dayNumber (startOfWeek d 0) = dayNumber d - getDay d
  /\ Nat.iter (Z.to_nat (getDay d)) nextDay (startOfWeek d 0) = d.
Proof.
  intros Hd. pose proof (getDay_range d) as Hr.
  unfold startOfWeek, addDays.
  destruct (Z.ltb_spec (getDay d) 0); [lia|].
  replace (- (0 + getDay d - 0)) with (- getDay d) by lia.
  destruct (Z.leb_spec 0 (- getDay d)).
  - assert (E : getDay d = 0) by lia. rewrite E. simpl.
    split; [assumption | split; [lia | reflexivity]].
  - rewrite Z.opp_involutive.
    destruct (iter_prevDay_spec (Z.to_nat (getDay d)) d Hd) as [Hv Hn].
    split; [assumption | split; [lia | now apply iter_nextDay_prevDay]].
Qed.

(** The week of [d] ends [6 - getDay d] days after [d], on a Saturday. *)
Lemma endOfWeek_spec (d : Date) :
  valid d ->
  valid (endOfWeek d 0)
  /\ dayNumber (endOfWeek d 0) = dayNumber d + 6 - getDay d.
Proof.
  intros Hd. pose proof (getDay_range d) as Hr.
  unfold endOfWeek, addDays.
  destruct (Z.ltb_spec (getDay d) 0); [lia|].
  replace (0 + 6 - (getDay d - 0)) with (6 - getDay d) by lia.
  destruct (Z.leb_spec 0 (6 - getDay d)); [|lia].
  destruct (iter_nextDay_spec (Z.to_nat (6 - getDay d)) d Hd) as [Hv Hn].
  split; [assumption|lia].
Qed.

Lemma daysFrom_length (d : Date) (n : nat) : List.length (daysFrom d n) = n.
Proof. revert d. induction n as [|n IH]; intros d; simpl; [reflexivity | now rewrite IH]. Qed.

Lemma daysFrom_nth_error (d : Date) (n i : nat) :
  (i < n)%nat -> nth_error (daysFrom d n) i = Some (Nat.iter i nextDay d).
Proof.
  revert d i. induction n as [|n IH]; intros d i Hi; [lia|].
  destruct i as [|i]; simpl daysFrom; [reflexivity|].
  simpl nth_error. rewrite IH by lia. now rewrite <- Nat.iter_succ_r.
Qed.

Lemma daysFrom_In (d x : Date) (n : nat) :
  In x (daysFrom d n) -> exists i, (i < n)%nat /\ x = Nat.iter i nextDay d.
Proof.
  intros Hin. apply In_nth_error in Hin. destruct Hin as [i Hi].
  assert (Hlt : (i < n)%nat).
  { rewrite <- (daysFrom_length d n). apply nth_error_Some. congruence. }
  exists i. split; [assumption|].
  rewrite daysFrom_nth_error in Hi by assumption. congruence.
Qed.

Lemma daysFrom_NoDup (d : Date) (n : nat) : valid d -> NoDup (daysFrom d n).
Proof.
  revert d. induction n as [|n IH]; intros d Hd; simpl; constructor.
  - intros Hin. apply daysFrom_In in Hin. destruct Hin as [i [_ Hi]].
    destruct (nextDay_spec d Hd) as [Hv Hn].
    destruct (iter_nextDay_spec i (nextDay d) Hv) as [_ Hi'].
    rewrite <- Hi in Hi'. lia.
  - apply IH, nextDay_spec, Hd.
Qed.

(** Within a month, stepping from the first day counts the day up. *)
Lemma iter_nextDay_in_month (y m : Z) (n : nat) :
  1 + Z.of_nat n <= getDaysInMonth y m ->
  Nat.iter n nextDay (mkDate y m 1) = mkDate y m (1 + Z.of_nat n).
Proof.
  induction n as [|n IH]; intros Hn; [reflexivity|].
  simpl Nat.iter. rewrite IH by lia. unfold nextDay; cbn [year month day].
  destruct (Z.ltb_spec (1 + Z.of_nat n) (getDaysInMonth y m)); [|lia].
  f_equal. lia.
Qed.

Lemma startOfMonth_valid (d : Date) : valid d -> valid (startOfMonth d).
Proof.
  unfold valid, startOfMonth; simpl. intros [Hm _].
  pose proof (getDaysInMonth_bounds (year d) (month d)). lia.
Qed.

Lemma endOfMonth_valid (d : Date) : valid d -> valid (endOfMonth d).
Proof.
  unfold valid, endOfMonth; simpl. intros [Hm _].
  pose proof (getDaysInMonth_bounds (year d) (month d)). lia.
Qed.

Lemma endOfMonth_dayNumber (d : Date) :
  dayNumber (endOfMonth d)
  = dayNumber (startOfMonth d) + getDaysInMonth (year d) (month d) - 1.
Proof. unfold dayNumber, endOfMonth, startOfMonth; simpl. lia. Qed.

(** C4: for every visible month, the grid is a whole number of weeks long,
    holds each day of the month exactly once, holds no day twice, and each
    of its days is the day after the one before it. *)
Theorem monthInterval_grid (visibleMonth : Date) :
  valid visibleMonth ->
  let grid := monthInterval visibleMonth in
  (exists weeks : nat, List.length grid = (7 * weeks)%nat)
  /\ (forall k : Z,
         1 <= k <= getDaysInMonth (year visibleMonth) (month visibleMonth) ->
         count_occ Date_eq_dec grid
                   (mkDate (year visibleMonth) (month visibleMonth) k) = 1%nat)
  /\ NoDup grid
  /\ (forall (i : nat) (a b : Date),
         nth_error grid i = Some a -> nth_error grid (S i) = Some b ->
         b = nextDay a /\ dayNumber b = dayNumber a + 1).
Proof.
  intros Hvalid grid.
  pose proof (startOfMonth_valid _ Hvalid) as Hsom.
  pose proof (endOfMonth_valid _ Hvalid) as Heom.
  destruct (startOfWeek_spec _ Hsom) as [Hstart [Hstart_n Hstart_iter]].
  destruct (endOfWeek_spec _ Heom) as [Hfinish Hfinish_n].
  pose proof (endOfMonth_dayNumber visibleMonth) as Hspan.
  pose proof (getDaysInMonth_bounds (year visibleMonth) (month visibleMonth)) as Hdim.
  pose proof (getDay_range (startOfMonth visibleMonth)) as Hgs.
  pose proof (getDay_range (endOfMonth visibleMonth)) as Hge.
  set (start := startOfWeek (startOfMonth visibleMonth) 0) in *.
  set (finish := endOfWeek (endOfMonth visibleMonth) 0) in *.
  set (n := Z.to_nat (dayNumber finish - dayNumber start + 1)).
  assert (Hgrid : grid = daysFrom start n) by reflexivity.
  assert (Hnth : forall i, (i < n)%nat ->
            nth_error grid i = Some (Nat.iter i nextDay start)).
  { intros i Hi. rewrite Hgrid. now apply daysFrom_nth_error. }
  assert (Hnodup : NoDup grid) by (rewrite Hgrid; now apply daysFrom_NoDup).
  assert (Hlen : List.length grid = n) by (rewrite Hgrid; apply daysFrom_length).
  split; [|split; [|split]].
  - (* a whole number of weeks *)
    exists (Z.to_nat ((dayNumber finish - dayNumber start + 1) / 7)).
    rewrite Hlen. unfold n.
    assert (Hdiv : dayNumber finish - dayNumber start + 1
                   = 7 * ((dayNumber finish - dayNumber start + 1) / 7)).
    { rewrite Hfinish_n, Hstart_n. unfold getDay in *.
      Z.to_euclidean_division_equations. lia. }
    rewrite Hdiv at 1. rewrite Z2Nat.inj_mul by lia. reflexivity.
  - (* every day of the month, once *)
    intros k Hk. apply NoDup_count_occ'; [assumption|].
    set (i := (Z.to_nat (k - 1) + Z.to_nat (getDay (startOfMonth visibleMonth)))%nat).
    assert (Hi : (i < n)%nat) by (unfold i, n; lia).
    apply nth_error_In with (n := i). rewrite (Hnth i Hi). f_equal.
    unfold i. rewrite Nat.iter_add, Hstart_iter.
    unfold startOfMonth. rewrite iter_nextDay_in_month by lia.
    f_equal. lia.
  - exact Hnodup.
  - (* consecutive days *)
    intros i a b Ha Hb.
    assert (Hi : (S i < n)%nat).
    { rewrite <- Hlen. apply nth_error_Some. congruence. }
    rewrite Hnth in Ha, Hb by lia.
    injection Ha as <-. injection Hb as <-.
    split; [reflexivity|].
    apply nextDay_spec, iter_nextDay_spec, Hstart.
Qed.

End DateGrid.

(** March 2025 starts on a Saturday and ends on a Monday: six weeks, from
    Sunday 23 February to Saturday 5 April. *)
Example monthInterval_march_2025 :
  List.length (monthInterval today) = 42%nat
  /\ hd_error (monthInterval today) = Some (DateFns.mkDate 2025 2 23)
  /\ last (monthInterval today) today = DateFns.mkDate 2025 4 5.
Proof. repeat split. Qed.

Lemma monthInterval_grid_march_2025 :
  DateFns.valid today
  /\ NoDup (monthInterval today)
  /\ count_occ DateFns.Date_eq_dec (monthInterval today) (DateFns.mkDate 2025 3 31) = 1%nat.
Proof.
  assert (Hvalid : DateFns.valid today) by (unfold DateFns.valid, DateFns.getDaysInMonth, today; simpl; lia).
  destruct (monthInterval_grid today Hvalid) as [_ [Hmonth [Hnodup _]]].
  split; [exact Hvalid|]. split; [exact Hnodup|].
  apply (Hmonth 31%Z). unfold DateFns.getDaysInMonth, today; simpl. lia.
Defined.

(** ** The summary and the recommendations on the seed records *)

Example summary_seeded :
  let s := summary (events seeded) (visibleMonth seeded) in
  MonthSummary.totalConsumption s = Finite 735
  /\ MonthSummary.totalProduction s = Finite 1190
  /\ MonthSummary.storageBuffer s = Finite 325
  /\ MonthSummary.netBalance s = Finite 780
  /\ MonthSummary.completedCount s = 3%nat
  /\ MonthSummary.totalEvents s = 7%nat
  /\ MonthSummary.averageEfficiency s = Finite 77.
Proof. repeat split. Qed.

Example recommendations_seeded :
  map Recommendation.title
      (recommendations (summary (events seeded) (visibleMonth seeded)) (events seeded))
  = ["Positive Net Balance"; "Improve Efficiency Scores"]
  /\ map Recommendation.detail
       (recommendations (summary (events seeded) (visibleMonth seeded)) (events seeded))
     = ["You're producing more energy than you consume. Schedule a provision event to export surplus during afternoon peak pricing.";
        "Optimize schedules for EV Fleet Charging & Data Center Load Test to boost their efficiency ratings above 70%."].
Proof. split; reflexivity. Qed.

(** A month with one Demand event of 420 kWh and one Production event of
    560 kWh: the balance is 140, and demand is not above 1.2 times the
    production. *)
Example recommendations_two_events :
  let events := firstn 2 (events seeded) in
  let s := summary events (visibleMonth seeded) in
  MonthSummary.netBalance s = Finite 140
  /\ map Recommendation.title (recommendations s events)
     = ["Positive Net Balance"; "Improve Efficiency Scores"].
Proof. split; reflexivity. Qed.

(** The seven seed records are all dated in the visible month, and their
    rounded mean score is 77. *)
Lemma averageEfficiency_seeded :
  (exists event, In event (events seeded)
                 /\ JsString.startsWith (date event)
                      (DateFns.format_yyyy_MM (visibleMonth seeded)) = true)
  /\ MonthSummary.averageEfficiency (summary (events seeded) (visibleMonth seeded))
     = Finite 77.
Proof.
  assert (Hsome : exists event, In event (events seeded)
                    /\ JsString.startsWith (date event)
                         (DateFns.format_yyyy_MM (visibleMonth seeded)) = true).
  { eexists. split; [left; reflexivity | reflexivity]. }
  split; [exact Hsome|].
  rewrite (proj1 (averageEfficiency_rounded_mean (events seeded) (visibleMonth seeded)) Hsome).
  reflexivity.
Defined.

(** The first seed record is dated 2025-03-05, in the visible month, and is
    among the events the summary selects. *)
Lemma netBalance_formula_seeded :
  DateFns.valid (visibleMonth seeded)
  /\ MonthSummary.netBalance (summary (events seeded) (visibleMonth seeded)) = Finite 780
  /\ In (seed 1 "EV Fleet Charging" Demand "05" "19:00" "22:30" 420 Scheduled 68
               "Aligned with evening time-of-use incentives." today)
        (monthEvents (events seeded) (visibleMonth seeded)).
Proof.
  assert (Hvalid : DateFns.valid (visibleMonth seeded))
    by (unfold DateFns.valid, DateFns.getDaysInMonth; simpl; lia).
  destruct (netBalance_formula (events seeded) (visibleMonth seeded)) as [Hnet Hsel].
  split; [exact Hvalid|]. split; [rewrite Hnet; reflexivity|].
  apply (Hsel _ (DateFns.mkDate 2025 3 5)).
  - exact Hvalid.
  - simpl. lia.
  - unfold DateFns.valid, DateFns.getDaysInMonth; simpl; lia.
  - simpl. lia.
  - reflexivity.
  - split; [left; reflexivity | split; reflexivity].
Defined.

(** * Further properties of the page *)

(** ** More on strings *)

Lemma trimEnd_idempotent (s : string) : JsString.trimEnd (JsString.trimEnd s) = JsString.trimEnd s.
Proof.
  induction s as [|c r IH]; simpl; [reflexivity|].
  destruct (JsString.isWhiteSpace c) eqn:Ec; simpl.
  - destruct (JsString.isEmpty (JsString.trimEnd r)) eqn:Er; simpl; [reflexivity|].
    rewrite Ec, IH, Er. reflexivity.
  - rewrite Ec, IH. reflexivity.
Qed.

(** After [trimStart] the text is empty or starts with a character that is
    not white space. *)
Lemma trimStart_head (s : string) :
  JsString.trimStart s = ""
  \/ exists c r, JsString.trimStart s = String c r /\ JsString.isWhiteSpace c = false.
Proof.
  induction s as [|c r IH]; simpl; [now left|].
  destruct (JsString.isWhiteSpace c) eqn:Ec; [exact IH|].
  right. exists c, r. split; [reflexivity | assumption].
Qed.

Lemma trim_head (s : string) :
  JsString.trim s = ""
  \/ exists c r, JsString.trim s = String c r /\ JsString.isWhiteSpace c = false.
Proof.
  unfold JsString.trim.
  destruct (trimStart_head s) as [-> | [c [r [-> Hc]]]]; [now left|].
  right. simpl. rewrite Hc. simpl. eauto.
Qed.

Lemma trim_idempotent (s : string) : JsString.trim (JsString.trim s) = JsString.trim s.
Proof.
  destruct (trim_head s) as [E | [c [r [E Hc]]]].
  - rewrite E. reflexivity.
  - unfold JsString.trim at 1. rewrite E. simpl JsString.trimStart. rewrite Hc.
    rewrite <- E. unfold JsString.trim. apply trimEnd_idempotent.
Qed.

Section FormExtras.

Context {num : Type} `{JSNumber num}.

Lemma submitDisabled_missingField (draft : NewEvent.t) :
  submitDisabled draft = true -> missingField draft = true.
Proof.
  unfold submitDisabled, missingField. intros Hd.
  apply orb_true_iff in Hd. destruct Hd as [-> | ->]; [reflexivity|].
  now rewrite !orb_true_r.
Qed.

(** X1: while the submit button is disabled (blank title or empty energy
    text), submitting changes nothing. *)
Theorem submitDisabled_refused (now : Z) (st : State num) :
  submitDisabled (newEvent st) = true -> handleCreateEvent now st = st.
Proof.
  intros Hd. apply handleCreateEvent_refused. unfold accepted.
  now rewrite (submitDisabled_missingField _ Hd).
Qed.

Lemma resetDraft_missingField (draft : NewEvent.t) : missingField (resetDraft draft) = true.
Proof. reflexivity. Qed.

(** X2: a second submission right after any submission changes nothing:
    an accepted one clears the title, a refused one left the draft as it
    was. *)
Theorem handleCreateEvent_twice (first second : Z) (st : State num) :
  handleCreateEvent second (handleCreateEvent first st) = handleCreateEvent first st.
Proof.
  destruct (accepted st) eqn:Hacc.
  - rewrite (handleCreateEvent_accepted first st Hacc).
    apply handleCreateEvent_refused. unfold accepted. simpl newEvent.
    now rewrite resetDraft_missingField.
  - rewrite (handleCreateEvent_refused first st Hacc).
    now apply handleCreateEvent_refused.
Qed.

Lemma createdEvent_wellFormed (now : Z) (st : State num) :
  accepted st = true ->
  wellFormed (createdEvent now (newEvent st) (Number (NewEvent.energyKwh (newEvent st)))).
Proof.
  unfold accepted, missingField. intros Hacc.
  apply andb_true_iff in Hacc. destruct Hacc as [Hm Hb].
  apply negb_true_iff in Hm, Hb.
  apply orb_false_iff in Hm. destruct Hm as [Hm _].
  apply orb_false_iff in Hm. destruct Hm as [Ht Hd].
  unfold wellFormed, createdEvent; simpl.
  repeat split; try assumption.
  - apply trim_idempotent.
  - destruct (JsString.isEmpty (JsString.trim (NewEvent.notes (newEvent st)))) eqn:En;
      [discriminate|].
    intros [= Hn]. rewrite Hn in En. discriminate.
Qed.

(** The events of the store after a run: those before it, then the
    events the accepted submissions created, each satisfying [P] when every
    created event does. *)
Lemma run_events (P : EnergyEvent num -> Prop) :
  (forall now st, accepted st = true ->
     P (createdEvent now (newEvent st) (Number (NewEvent.energyKwh (newEvent st))))) ->
  forall (actions : list Action) (st : State num),
  exists tail,
    events (run actions st) = events st ++ tail
    /\ Forall P tail
    /\ (List.length tail <= List.length (submitTimes actions))%nat.
Proof.
  intros HP actions. induction actions as [|a rest IH]; intros st.
  - exists []. rewrite app_nil_r. repeat split; [constructor | simpl; lia].
  - unfold run. simpl fold_left. fold (run rest (step st a)).
    destruct (IH (step st a)) as [tail [Hev [HF Hlen]]].
    destruct a as [field value | now]; simpl step in *.
    + exists tail. simpl. repeat split; assumption.
    + destruct (accepted st) eqn:Hacc.
      * rewrite (handleCreateEvent_accepted now st Hacc) in Hev |- *.
        simpl events in Hev. rewrite <- app_assoc in Hev.
        eexists. split; [exact Hev|].
        split; [constructor; [now apply HP | assumption] | simpl; lia].
      * rewrite (handleCreateEvent_refused now st Hacc) in Hev |- *.
        exists tail. repeat split; [assumption | assumption | simpl; lia].
Qed.

(** X3: whatever is typed and submitted, the store only grows at its end,
    by at most one event per submission, and the visible month and the
    category filter stay as they were. *)
Theorem run_append_only (actions : list Action) (st : State num) :
  exists tail,
    events (run actions st) = events st ++ tail
    /\ (List.length tail <= List.length (submitTimes actions))%nat
    /\ visibleMonth (run actions st) = visibleMonth st
    /\ activeFilter (run actions st) = activeFilter st.
Proof.
  destruct (run_events (fun _ => True) (fun _ _ _ => I) actions st) as [tail [Hev [_ Hlen]]].
  exists tail. repeat split; try assumption.
  - clear. revert st. induction actions as [|a rest IH]; intros st; [reflexivity|].
    unfold run. simpl fold_left. fold (run rest (step st a)). rewrite IH.
    destruct a as [f v | now]; simpl; [reflexivity|].
    unfold handleCreateEvent. destruct (missingField _); [reflexivity|].
    destruct (badEnergy _); reflexivity.
  - clear. revert st. induction actions as [|a rest IH]; intros st; [reflexivity|].
    unfold run. simpl fold_left. fold (run rest (step st a)). rewrite IH.
    destruct a as [f v | now]; simpl; [reflexivity|].
    unfold handleCreateEvent. destruct (missingField _); [reflexivity|].
    destruct (badEnergy _); reflexivity.
Qed.

(** X4: every event the form adds to the store has a title that is not
    empty and carries no white space around it, a date that is not empty,
    an energy that is neither NaN nor at most 0, the score derived from
    that energy, and notes that are absent or not empty. *)
Theorem run_created_wellFormed (actions : list Action) (st : State num) :
  exists tail,
    events (run actions st) = events st ++ tail /\ Forall wellFormed tail.
Proof.
  destruct (run_events wellFormed createdEvent_wellFormed actions st) as [tail [Hev [HF _]]].
  exists tail. split; assumption.
Qed.

(** X5: notes of nothing but white space become absent on the created
    event; any other notes are kept trimmed, and are not empty. *)
Theorem createdEvent_notes (now : Z) (draft : NewEvent.t) (energyValue : num) :
  (JsString.whitespaceOnly (NewEvent.notes draft) = true ->
   notes (createdEvent now draft energyValue) = None)
  /\ (JsString.whitespaceOnly (NewEvent.notes draft) = false ->
      notes (createdEvent now draft energyValue) = Some (JsString.trim (NewEvent.notes draft))
      /\ JsString.trim (NewEvent.notes draft) <> "").
Proof.
  unfold createdEvent; simpl. rewrite trim_isEmpty.
  split; intros Hw; rewrite Hw; [reflexivity|]. split; [reflexivity|].
  intros E. pose proof (trim_isEmpty (NewEvent.notes draft)) as Ht.
  rewrite E, Hw in Ht. discriminate.
Qed.

End FormExtras.

(** ** The energy field *)

Lemma replaceNonNumeric_idempotent (s : string) :
  JsString.replaceNonNumeric (JsString.replaceNonNumeric s) = JsString.replaceNonNumeric s.
Proof. apply replaceNonNumeric_fixpoint, replaceNonNumeric_numeric. Qed.

Lemma replaceNonNumeric_length (s : string) :
  (String.length (JsString.replaceNonNumeric s) <= String.length s)%nat.
Proof.
  induction s as [|c r IH]; simpl; [lia|].
  destruct (JsString.isDigit c || Ascii.eqb c "."); simpl; lia.
Qed.

Lemma numericChar_cases (c : ascii) :
  numericChar c = true ->
  In c ["0"; "1"; "2"; "3"; "4"; "5"; "6"; "7"; "8"; "9"; "."]%char.
Proof.
  destruct c as [[|] [|] [|] [|] [|] [|] [|] [|]]; intros Hc;
    try discriminate Hc; simpl; tauto.
Qed.

Lemma numericChar_not_white (c : ascii) :
  numericChar c = true -> JsString.isWhiteSpace c = false.
Proof.
  intros Hc. apply numericChar_cases in Hc. simpl in Hc.
  repeat (destruct Hc as [<- | Hc]; [reflexivity|]). destruct Hc.
Qed.

Lemma trimEnd_numeric (s : string) :
  JsString.allChars numericChar s = true -> JsString.trimEnd s = s.
Proof.
  induction s as [|c r IH]; simpl; [reflexivity|].
  intros Hs. apply andb_true_iff in Hs. destruct Hs as [Hc Hr].
  rewrite (numericChar_not_white c Hc), (IH Hr). reflexivity.
Qed.

Lemma trim_numeric (s : string) :
  JsString.allChars numericChar s = true -> JsString.trim s = s.
Proof.
  intros Hs. unfold JsString.trim.
  destruct s as [|c r]; [reflexivity|].
  simpl JsString.trimStart.
  simpl in Hs. apply andb_true_iff in Hs. destruct Hs as [Hc Hr].
  rewrite (numericChar_not_white c Hc).
  apply trimEnd_numeric. simpl. now rewrite Hc, Hr.
Qed.

(** ** [Number] on a text of digits and full stops *)

Lemma digitValue_nonneg (base : Z) (c : ascii) (d : Z) :
  Exact.digitValue base c = Some d -> (0 <= d)%Z.
Proof.
  unfold Exact.digitValue.
  set (n := Z.of_nat (nat_of_ascii c)).
  destruct ((48 <=? n)%Z && (n <=? 57)%Z) eqn:E1.
  - apply andb_true_iff in E1. destruct E1 as [E1 _]. apply Z.leb_le in E1.
    destruct (n - 48 <? base)%Z; intros [= <-]; lia.
  - destruct ((97 <=? n)%Z && (n <=? 102)%Z) eqn:E2.
    + apply andb_true_iff in E2. destruct E2 as [E2 _]. apply Z.leb_le in E2.
      destruct (n - 87 <? base)%Z; intros [= <-]; lia.
    + destruct ((65 <=? n)%Z && (n <=? 70)%Z) eqn:E3; [|discriminate].
      apply andb_true_iff in E3. destruct E3 as [E3 _]. apply Z.leb_le in E3.
      destruct (n - 55 <? base)%Z; intros [= <-]; lia.
Qed.

Lemma readDigits_nonneg (base : Z) (s : string) (acc : Z) (count : nat) :
  (0 <= base)%Z -> (0 <= acc)%Z ->
  (0 <= fst (fst (Exact.readDigits base acc count s)))%Z.
Proof.
  intros Hb. revert acc count.
  induction s as [|c r IH]; intros acc count Hacc; simpl; [assumption|].
  destruct (Exact.digitValue base c) as [d|] eqn:Ed; simpl; [|assumption].
  apply IH. pose proof (digitValue_nonneg base c d Ed). nia.
Qed.

Lemma pow10_nonneg (e : Z) : (0 <= Exact.pow10 e)%Q.
Proof. unfold Exact.pow10. apply Qpower_0_le. discriminate. Qed.

Lemma readUnsignedDecimal_nonneg (s : string) (q : Q) :
  Exact.readUnsignedDecimal s = Some q -> (0 <= q)%Q.
Proof.
  unfold Exact.readUnsignedDecimal.
  pose proof (readDigits_nonneg 10 s 0 0 ltac:(lia) ltac:(lia)) as Hw.
  destruct (Exact.readDigits 10 0 0 s) as [[whole n1] r1]. simpl in Hw.
  assert (Hfrac : forall frac n2 r2,
             (0 <= frac)%Z ->
             match n1, n2 with
             | O, O => None
             | _, _ =>
                 match Exact.readExponent r2 with
                 | Some e =>
                     Some ((inject_Z whole + inject_Z frac / Exact.pow10 (Z.of_nat n2))
                           * Exact.pow10 e)%Q
                 | None => None
                 end
             end = Some q -> (0 <= q)%Q).
  { intros frac n2 r2 Hf Hq.
    assert (Hv : forall e, (0 <= (inject_Z whole + inject_Z frac / Exact.pow10 (Z.of_nat n2))
                                 * Exact.pow10 e)%Q).
    { intros e. apply Qmult_le_0_compat; [|apply pow10_nonneg].
      assert (0 <= inject_Z whole)%Q by (unfold Qle; simpl; lia).
      assert (0 <= inject_Z frac / Exact.pow10 (Z.of_nat n2))%Q.
      { apply Qmult_le_0_compat; [unfold Qle; simpl; lia|].
        apply Qinv_le_0_compat, pow10_nonneg. }
      lra. }
    destruct n1, n2; try discriminate;
      destruct (Exact.readExponent r2); try discriminate;
      injection Hq as <-; apply Hv. }
  destruct r1 as [|c r]; [apply (Hfrac 0%Z O ""); lia|].
  destruct (Ascii.eqb_spec c ".") as [-> | Hne].
  - pose proof (readDigits_nonneg 10 r 0 0 ltac:(lia) ltac:(lia)) as Hf.
    destruct (Exact.readDigits 10 0 0 r) as [[frac n2] r2]. simpl in Hf.
    apply Hfrac. exact Hf.
  - intros Hq. apply (Hfrac 0%Z O (String c r)); [lia|].
    destruct c as [[|] [|] [|] [|] [|] [|] [|] [|]]; try exact Hq.
    now contradiction Hne.
Qed.

Lemma fin_nonneg (q : Q) : (0 <= q)%Q -> nonNegativeOrNaN (Exact.fin q).
Proof.
  intros Hq. right. exists (Qred q). split; [reflexivity|]. now rewrite Qred_correct.
Qed.

Lemma readSigned_nonneg (s : string) :
  String.eqb s "Infinity" = false -> nonNegativeOrNaN (Exact.readSigned false s).
Proof.
  intros Hs. unfold Exact.readSigned. rewrite Hs.
  destruct (Exact.readUnsignedDecimal s) as [q|] eqn:Eq; [|now left].
  apply fin_nonneg, (readUnsignedDecimal_nonneg s q Eq).
Qed.

Lemma parse_numeric (s : string) :
  JsString.allChars numericChar s = true -> nonNegativeOrNaN (Exact.parse s).
Proof.
  intros Hs. unfold Exact.parse. rewrite (trim_numeric s Hs).
  destruct s as [|c r]; [apply fin_nonneg; lra|].
  simpl in Hs. apply andb_true_iff in Hs. destruct Hs as [Hc Hr].
  apply numericChar_cases in Hc. simpl in Hc.
  destruct Hc as [<- | Hc].
  - destruct r as [|c2 r2]; [now apply readSigned_nonneg|].
    simpl in Hr. apply andb_true_iff in Hr. destruct Hr as [Hc2 _].
    apply numericChar_cases in Hc2. simpl in Hc2.
    repeat (destruct Hc2 as [<- | Hc2]; [now apply readSigned_nonneg|]).
    destruct Hc2.
  - repeat (destruct Hc as [<- | Hc]; [now apply readSigned_nonneg|]).
    destruct Hc.
Qed.

(** ** The energy text as a number, and the states the form can reach *)

Lemma updateDraft_energyKwh (field value : string) (prev : NewEvent.t) :
  NewEvent.energyKwh (updateDraft field value prev)
  = if (field =? "energyKwh")%string then JsString.replaceNonNumeric value
    else NewEvent.energyKwh prev.
Proof.
  unfold updateDraft. destruct prev as [t ty d s e k st n].
  destruct (String.eqb_spec field "energyKwh") as [-> | Hne]; [reflexivity|].
  destruct (field =? "title")%string; [reflexivity|].
  destruct (field =? "type")%string; [destruct (decodeType value); reflexivity|].
  destruct (field =? "date")%string; [reflexivity|].
  destruct (field =? "startTime")%string; [reflexivity|].
  destruct (field =? "endTime")%string; [reflexivity|].
  destruct (field =? "status")%string; [destruct (decodeStatus value); reflexivity|].
  destruct (field =? "notes")%string; reflexivity.
Qed.

(** X6: whatever is typed into the energy field, the stored text converts
    to NaN, to Infinity or to a finite double that is not negative: no sign
    survives the filter.  Infinity does occur: a text of 310 digits
    overflows. *)
Theorem energy_field_never_negative :
  (forall (value : string) (st : State double),
      let text := NewEvent.energyKwh (newEvent (handleChange "energyKwh" value st)) in
      notNegative (Number text))
  /\ (forall st : State double,
        let text := NewEvent.energyKwh (newEvent (handleChange "energyKwh" overflowing st)) in
        text = overflowing /\ Number text = Double Infinity).
Proof.
  assert (E : forall value (st : State double),
             NewEvent.energyKwh (newEvent (handleChange "energyKwh" value st))
             = JsString.replaceNonNumeric value)
    by (intros value st; unfold handleChange; simpl; apply updateDraft_energyKwh).
  split.
  - intros value st text. subst text. rewrite E.
    unfold notNegative. cbn [Number double_JSNumber exactValue].
    destruct (parse_numeric _ (replaceNonNumeric_numeric value)) as [-> | [q [-> Hq]]].
    + now left.
    + right. destruct (round_nonneg q Hq) as [-> | [v [-> Hv]]]; [now left|].
      right. now exists v.
  - intros st text. subst text. rewrite E. split; vm_compute; reflexivity.
Qed.

Lemma initialState_sound (today : DateFns.Date) :
  Forall soundEvent (events (initialState today : State double)).
Proof.
  unfold initialState, initialEvents; cbn [events].
  repeat constructor; try (vm_compute; reflexivity);
    [ exists 68%Z | exists 92%Z | exists 83%Z | exists 88%Z
    | exists 54%Z | exists 79%Z | exists 72%Z ];
    (split; [vm_compute; reflexivity | lia]).
Qed.

Lemma step_sound (st : State double) (a : Action) :
  Forall soundEvent (events st) -> Forall soundEvent (events (step st a)).
Proof.
  intros Hevents. destruct a as [field value | now]; simpl step; [exact Hevents|].
  destruct (accepted st) eqn:Hacc.
  - rewrite (handleCreateEvent_accepted now st Hacc). cbn [events].
    apply Forall_app. split; [exact Hevents|].
    constructor; [|constructor].
    destruct (positive_of_not_bad _ (accepted_energy st Hacc)) as [Hnan Hlt].
    destruct (score_range _ Hnan Hlt) as [z [Hz [Hrange _]]].
    unfold soundEvent. cbn [energyKwh efficiencyScore createdEvent].
    split; [exact Hnan|]. split; [exact Hlt|]. exists z. split; [exact Hz | lia].
  - now rewrite (handleCreateEvent_refused now st Hacc).
Qed.

Lemma run_sound (actions : list Action) (st : State double) :
  Forall soundEvent (events st) -> Forall soundEvent (events (run actions st)).
Proof.
  revert st. induction actions as [|a rest IH]; intros st Hst; [exact Hst|].
  unfold run. simpl fold_left. fold (run rest (step st a)).
  apply IH, step_sound, Hst.
Qed.

(** X8: in every state the form can reach from the initial one, whatever
    the current date, each event of the store has an energy that is a
    number above 0 (Infinity is possible) and an integer score from 40 to
    92. *)
Theorem reachable_events_sound (today : DateFns.Date) (actions : list Action) :
  Forall soundEvent (events (run actions (initialState today))).
Proof. apply run_sound, initialState_sound. Qed.

(** ** The balance shown in the header and the balance advisory *)

Section Advisory.

Context {num : Type} `{JSNumber num}.

Lemma positive_advisory (s : MonthSummary.t num) (events : list (EnergyEvent num)) :
  countTitled "Positive Net Balance" (recommendations s events)
  = if num_lt (MonthSummary.netBalance s) (int 0) then 0%nat else 1%nat.
Proof.
  unfold recommendations, countTitled.
  destruct (num_lt (MonthSummary.netBalance s) (int 0));
    destruct (num_lt _ (TotalsByType.Demand _));
    destruct (0 <? _)%nat; reflexivity.
Qed.

End Advisory.

Lemma surplus_iff_not_negative (s : MonthSummary.t number) :
  Exact.isNaN (MonthSummary.netBalance s) = false ->
  netBalanceSurplus s = negb (num_lt (MonthSummary.netBalance s) (int 0)).
Proof.
  unfold netBalanceSurplus. cbn [num_le num_lt number_JSNumber].
  change (int 0) with (Finite 0).
  destruct (MonthSummary.netBalance s) as [| | q |]; simpl; try discriminate; try reflexivity.
  intros _. now rewrite negb_involutive.
Qed.

(** X9: on exact numbers, when netBalance is not NaN the header shows "+"
    exactly when the advisory is "Positive Net Balance"; when netBalance is
    NaN the two disagree: the header shows "-" and the advisory is
    "Positive Net Balance". *)
Theorem header_agrees_with_advisory (s : MonthSummary.t number)
  (events : list (EnergyEvent number)) :
  (Exact.isNaN (MonthSummary.netBalance s) = false ->
   (netBalanceSign s = "+"
    <-> countTitled "Positive Net Balance" (recommendations s events) = 1%nat))
  /\ (Exact.isNaN (MonthSummary.netBalance s) = true ->
      netBalanceSign s = "-"
      /\ countTitled "Positive Net Balance" (recommendations s events) = 1%nat).
Proof.
  rewrite positive_advisory. unfold netBalanceSign. split.
  - intros Hnan. rewrite (surplus_iff_not_negative s Hnan).
    destruct (num_lt (MonthSummary.netBalance s) (int 0)); simpl;
      split; intros; try reflexivity; discriminate.
  - unfold netBalanceSurplus. cbn [num_le num_lt number_JSNumber].
    destruct (MonthSummary.netBalance s); try discriminate. intros _. split; reflexivity.
Qed.

(** ** More on the summary, the recommendations and the filter *)

Section AggregationExtras.

Context {num : Type} `{JSNumber num}.

Lemma filter_length_le {A : Type} (p : A -> bool) (l : list A) :
  (List.length (filter p l) <= List.length l)%nat.
Proof. induction l as [|a l IH]; simpl; [lia|]. destruct (p a); simpl; lia. Qed.

(** X11: the summary never counts more completed events than events of
    the month, nor more events of the month than the store holds; with no
    event in the month the average efficiency is 0. *)
Theorem summary_counts (events : list (EnergyEvent num)) (visibleMonth : DateFns.Date) :
  let s := summary events visibleMonth in
  (MonthSummary.completedCount s <= MonthSummary.totalEvents s)%nat
  /\ (MonthSummary.totalEvents s <= List.length events)%nat
  /\ (MonthSummary.totalEvents s = 0%nat -> MonthSummary.averageEfficiency s = int 0).
Proof.
  unfold summary; simpl. repeat split; try apply filter_length_le.
  intros Hzero. rewrite Hzero. reflexivity.
Qed.

Lemma monthEvents_app (l1 l2 : list (EnergyEvent num)) (visibleMonth : DateFns.Date) :
  monthEvents (l1 ++ l2) visibleMonth
  = monthEvents l1 visibleMonth ++ monthEvents l2 visibleMonth.
Proof. unfold monthEvents. apply filter_app. Qed.

(** X12: appending an event whose date does not start with the month key
    leaves the whole summary as it was. *)
Theorem summary_ignores_other_months (events : list (EnergyEvent num))
  (event : EnergyEvent num) (visibleMonth : DateFns.Date) :
  JsString.startsWith (date event) (DateFns.format_yyyy_MM visibleMonth) = false ->
  summary (events ++ [event]) visibleMonth = summary events visibleMonth.
Proof.
  intros Hout.
  assert (E : monthEvents (events ++ [event]) visibleMonth = monthEvents events visibleMonth).
  { rewrite monthEvents_app. unfold monthEvents at 2. simpl. rewrite Hout. apply app_nil_r. }
  unfold summary. rewrite E. reflexivity.
Qed.

(** X13: appending an event whose date starts with the month key raises
    totalEvents by one, raises completedCount by one exactly when its status
    is Completed, adds its energy to the running total of its own type and
    leaves the other three totals alone. *)
Theorem summary_counts_new_event (events : list (EnergyEvent num))
  (event : EnergyEvent num) (visibleMonth : DateFns.Date) :
  JsString.startsWith (date event) (DateFns.format_yyyy_MM visibleMonth) = true ->
  let before := summary events visibleMonth in
  let after := summary (events ++ [event]) visibleMonth in
  MonthSummary.totalEvents after = S (MonthSummary.totalEvents before)
  /\ MonthSummary.completedCount after
     = (MonthSummary.completedCount before
        + if Status_eqb (status event) Completed then 1 else 0)%nat
  /\ (forall ty,
        totalsGet (MonthSummary.totalsByType after) ty
        = if EnergyType_eqb (type event) ty
          then num_add (totalsGet (MonthSummary.totalsByType before) ty) (energyKwh event)
          else totalsGet (MonthSummary.totalsByType before) ty).
Proof.
  intros Hin before after.
  assert (E : monthEvents (events ++ [event]) visibleMonth
              = monthEvents events visibleMonth ++ [event]).
  { rewrite monthEvents_app. unfold monthEvents at 2. simpl. now rewrite Hin. }
  subst before after. unfold summary; simpl. rewrite E.
  split; [|split].
  - rewrite length_app. simpl. lia.
  - rewrite filter_app, length_app. simpl.
    destruct (Status_eqb (status event) Completed); reflexivity.
  - intros ty. rewrite fold_left_app. simpl.
    unfold totalsStep at 1. destruct (type event), ty; reflexivity.
Qed.

Lemma prefix_append (p r : string) : String.prefix p (p ++ r) = true.
Proof. apply prefix_exists. now exists r. Qed.

Lemma seed_in_month (n : Z) (title : string) (ty : EnergyType) (dd startTime endTime : string)
  (energyKwh : Z) (status : Status) (efficiencyScore : Z) (notes : string)
  (today : DateFns.Date) :
  JsString.startsWith
    (date (seed n title ty dd startTime endTime energyKwh status efficiencyScore notes today))
    (DateFns.format_yyyy_MM (DateFns.startOfMonth today)) = true.
Proof. unfold seed; simpl. apply prefix_append. Qed.

Lemma monthEvents_initialEvents (today : DateFns.Date) :
  monthEvents (initialEvents today) (DateFns.startOfMonth today) = initialEvents today.
Proof.
  unfold monthEvents, initialEvents. cbn [filter]. rewrite !seed_in_month. reflexivity.
Qed.

Lemma updateDraft_date (field value : string) (prev : NewEvent.t) :
  NewEvent.date (updateDraft field value prev)
  = if (field =? "date")%string then value else NewEvent.date prev.
Proof.
  unfold updateDraft. destruct prev as [t ty d s e k st n].
  destruct (String.eqb_spec field "date") as [-> | Hne]; [reflexivity|].
  destruct (field =? "title")%string; [reflexivity|].
  destruct (field =? "type")%string; [destruct (decodeType _); reflexivity|].
  destruct (field =? "startTime")%string; [reflexivity|].
  destruct (field =? "endTime")%string; [reflexivity|].
  destruct (field =? "energyKwh")%string; [reflexivity|].
  destruct (field =? "status")%string; [destruct (decodeStatus _); reflexivity|].
  destruct (field =? "notes")%string; reflexivity.
Qed.

Lemma typing_frame (edits : list (string * string)) (st : State num) :
  Forall (fun edit => fst edit <> "date") edits ->
  events (run (typing edits) st) = events st
  /\ visibleMonth (run (typing edits) st) = visibleMonth st
  /\ NewEvent.date (newEvent (run (typing edits) st)) = NewEvent.date (newEvent st).
Proof.
  intros Hedits. revert st.
  induction Hedits as [|[field value] rest Hne _ IH]; intros st; [repeat split|].
  change (run (typing ((field, value) :: rest)) st)
    with (run (typing rest) (handleChange field value st)).
  destruct (IH (handleChange field value st)) as [He [Hv Hd]].
  rewrite He, Hv, Hd. unfold handleChange; simpl.
  rewrite updateDraft_date. simpl in Hne.
  destruct (String.eqb_spec field "date"); [contradiction | repeat split].
Qed.

(** X14: from the initial state, whatever the current date, an event
    submitted without touching the date field lands in the visible month:
    the summary then counts eight events, the seven seeds and the new
    one. *)
Theorem default_date_lands_in_visible_month (today : DateFns.Date)
  (edits : list (string * string)) (now : Z) :
  let st := run (typing edits) (initialState today) in
  Forall (fun edit => fst edit <> "date") edits ->
  accepted st = true ->
  MonthSummary.totalEvents (summary (events (handleCreateEvent now st)) (visibleMonth st))
  = 8%nat.
Proof.
  intros st Hedits Hacc.
  destruct (typing_frame edits (initialState today) Hedits) as [He [Hv Hd]].
  fold st in He, Hv, Hd.
  rewrite (handleCreateEvent_accepted now st Hacc). simpl events.
  unfold summary; simpl MonthSummary.totalEvents.
  rewrite monthEvents_app, He, Hv.
  change (events (initialState today)) with (initialEvents today).
  change (visibleMonth (initialState today)) with (DateFns.startOfMonth today).
  rewrite monthEvents_initialEvents, length_app.
  unfold monthEvents. simpl filter. rewrite Hd.
  change (NewEvent.date (newEvent (initialState today)))
    with (DateFns.format_yyyy_MM_dd today).
  unfold DateFns.format_yyyy_MM_dd.
  replace (DateFns.format_yyyy_MM (DateFns.startOfMonth today))
    with (DateFns.format_yyyy_MM today) by reflexivity.
  unfold JsString.startsWith. rewrite prefix_append. reflexivity.
Qed.

End AggregationExtras.

Section RecommendationExtras.

Context {num : Type} `{JSNumber num}.

Lemma firstn_nonempty {A : Type} (l : list A) :
  (0 <? List.length (firstn 2 l))%nat = negb (match l with [] => true | _ => false end).
Proof. destruct l as [|a [|b l]]; reflexivity. Qed.

Lemma filter_nil_existsb {A : Type} (p : A -> bool) (l : list A) :
  match filter p l with [] => true | _ => false end = negb (existsb p l).
Proof.
  induction l as [|a l IH]; simpl; [reflexivity|].
  destruct (p a); simpl; [reflexivity | exact IH].
Qed.

(** X15: the advisories come in a fixed order: the balance advisory, then
    "Demand Peaks Forecasted" exactly when the Demand total is above 1.2
    times the Production total, then "Improve Efficiency Scores" exactly
    when some event of the store, of any month, scores below 70. *)
Theorem recommendations_titles (s : MonthSummary.t num) (events : list (EnergyEvent num)) :
  map Recommendation.title (recommendations s events)
  = [if num_lt (MonthSummary.netBalance s) (int 0)
     then "Net Load Imbalance" else "Positive Net Balance"]
    ++ (if num_lt (num_mul (TotalsByType.Production (MonthSummary.totalsByType s))
                           (literal (12 # 10)))
                  (TotalsByType.Demand (MonthSummary.totalsByType s))
        then ["Demand Peaks Forecasted"] else [])
    ++ (if existsb lowEfficiency events then ["Improve Efficiency Scores"] else []).
Proof.
  unfold recommendations, slice_0_2.
  rewrite length_map, firstn_nonempty.
  rewrite (filter_nil_existsb (fun event => num_lt (efficiencyScore event) (int 70)) events).
  rewrite negb_involutive. fold lowEfficiency.
  destruct (num_lt (MonthSummary.netBalance s) (int 0));
    destruct (num_lt _ (TotalsByType.Demand _));
    destruct (existsb _ events); reflexivity.
Qed.

Lemma filter_all {A : Type} (p : A -> bool) (l : list A) :
  Forall (fun a => p a = true) l -> filter p l = l.
Proof.
  induction 1 as [|a l Ha _ IH]; simpl; [reflexivity|]. now rewrite Ha, IH.
Qed.

Lemma firstn_filter_low (events : list (EnergyEvent num)) :
  filter lowEfficiency (firstn 2 (filter lowEfficiency events))
  = firstn 2 (filter lowEfficiency events).
Proof.
  apply filter_all. apply Forall_forall. intros e He.
  assert (Hin : In e (filter lowEfficiency events)).
  { rewrite <- (firstn_skipn 2 (filter lowEfficiency events)).
    apply in_or_app. now left. }
  apply filter_In in Hin. tauto.
Qed.

(** X16: the recommendations read the event list only through its first
    two events that score below 70: on those two alone they are the
    same. *)
Theorem recommendations_first_two_low (s : MonthSummary.t num)
  (events : list (EnergyEvent num)) :
  recommendations s events
  = recommendations s (firstn 2 (filter lowEfficiency events)).
Proof.
  unfold recommendations, slice_0_2. fold lowEfficiency.
  rewrite firstn_filter_low, firstn_firstn. reflexivity.
Qed.

(** X17: the option "All" shows the event list itself; a category shows
    exactly the events of that type; the four categories split the list,
    their sizes adding up to its length. *)
Theorem filteredEvents_partition (events : list (EnergyEvent num)) :
  filteredEvents events None = events
  /\ (forall ty event,
        In event (filteredEvents events (Some ty)) <-> In event events /\ type event = ty)
  /\ (List.length (filteredEvents events (Some Demand))
      + List.length (filteredEvents events (Some Production))
      + List.length (filteredEvents events (Some Storage))
      + List.length (filteredEvents events (Some Provision))
      = List.length events)%nat.
Proof.
  split; [reflexivity|]. split.
  - intros ty event. unfold filteredEvents. rewrite filter_In.
    destruct (type event), ty; simpl; intuition congruence.
  - unfold filteredEvents. induction events as [|e l IH]; [reflexivity|].
    simpl. destruct (type e); simpl; lia.
Qed.

End RecommendationExtras.

(** ** More on the grid *)

Section GridExtras.

Import DateFns.

Local Open Scope Z_scope.

Lemma daysFrom_app (d : Date) (a b : nat) :
  daysFrom d (a + b) = daysFrom d a ++ daysFrom (Nat.iter a nextDay d) b.
Proof.
  revert d. induction a as [|a IH]; intros d; [reflexivity|].
  simpl Nat.add. simpl daysFrom. rewrite IH, <- Nat.iter_succ_r. reflexivity.
Qed.

(** A valid date of a month lies between its first and its last day. *)
Lemma dayNumber_in_month (d visibleMonth : Date) :
  valid d -> year d = year visibleMonth -> month d = month visibleMonth ->
  dayNumber (startOfMonth visibleMonth) <= dayNumber d
  <= dayNumber (endOfMonth visibleMonth).
Proof.
  intros [_ Hday] Hy Hm. unfold dayNumber, startOfMonth, endOfMonth; simpl.
  rewrite Hy, Hm in *. lia.
Qed.

Lemma isSameMonth_true (a b : Date) :
  isSameMonth a b = true <-> year a = year b /\ month a = month b.
Proof. unfold isSameMonth. rewrite andb_true_iff, !Z.eqb_eq. reflexivity. Qed.

(** The shape of the grid: the days before the month that complete its
    first week, the days of the month, the days after it that complete its
    last week. *)
Lemma monthInterval_parts (visibleMonth : Date) :
  valid visibleMonth ->
  let som := startOfMonth visibleMonth in
  let eom := endOfMonth visibleMonth in
  let dim := Z.to_nat (getDaysInMonth (year visibleMonth) (month visibleMonth)) in
  let leading := daysFrom (startOfWeek som 0) (Z.to_nat (getDay som)) in
  let trailing := daysFrom (nextDay eom) (Z.to_nat (6 - getDay eom)) in
  monthInterval visibleMonth = leading ++ daysFrom som dim ++ trailing
  /\ Forall (fun day => valid day /\ dayNumber day < dayNumber som) leading
  /\ Forall (fun day => year day = year visibleMonth /\ month day = month visibleMonth)
            (daysFrom som dim)
  /\ Forall (fun day => valid day /\ dayNumber eom < dayNumber day) trailing.
Proof.
  intros Hvalid som eom dim leading trailing.
  pose proof (startOfMonth_valid _ Hvalid) as Hsom.
  pose proof (endOfMonth_valid _ Hvalid) as Heom.
  destruct (startOfWeek_spec _ Hsom) as [Hstart [Hstart_n Hstart_iter]].
  destruct (endOfWeek_spec _ Heom) as [Hfinish Hfinish_n].
  pose proof (endOfMonth_dayNumber visibleMonth) as Hspan.
  pose proof (getDaysInMonth_bounds (year visibleMonth) (month visibleMonth)) as Hdim.
  pose proof (getDay_range som) as Hgs. pose proof (getDay_range eom) as Hge.
  fold som in Hstart, Hstart_n, Hstart_iter, Hspan, Hsom.
  fold eom in Hfinish, Hfinish_n, Hspan, Heom.
  assert (Hlast : Nat.iter dim nextDay som = nextDay eom).
  { replace dim with (S (Z.to_nat (getDaysInMonth (year visibleMonth) (month visibleMonth) - 1)))
      by (unfold dim; lia).
    simpl Nat.iter. unfold som, startOfMonth.
    rewrite iter_nextDay_in_month by lia. unfold eom, endOfMonth. do 2 f_equal. lia. }
  split; [|split; [|split]].
  - unfold monthInterval, eachDayOfInterval. fold som eom.
    replace (Z.to_nat (dayNumber (endOfWeek eom 0) - dayNumber (startOfWeek som 0) + 1))
      with (Z.to_nat (getDay som) + (dim + Z.to_nat (6 - getDay eom)))%nat
      by (unfold dim; lia).
    rewrite daysFrom_app, Hstart_iter, daysFrom_app, Hlast. reflexivity.
  - apply Forall_forall. intros day Hin. apply daysFrom_In in Hin.
    destruct Hin as [i [Hi ->]].
    destruct (iter_nextDay_spec i _ Hstart) as [Hv Hn]. split; [assumption|lia].
  - apply Forall_forall. intros day Hin. apply daysFrom_In in Hin.
    destruct Hin as [i [Hi ->]]. unfold som, startOfMonth.
    rewrite iter_nextDay_in_month by (unfold dim in Hi; lia). split; reflexivity.
  - apply Forall_forall. intros day Hin. apply daysFrom_In in Hin.
    destruct Hin as [i [Hi ->]].
    destruct (nextDay_spec _ Heom) as [Hv1 Hn1].
    destruct (iter_nextDay_spec i _ Hv1) as [Hv Hn]. split; [assumption|lia].
Qed.

Lemma filter_none {A : Type} (p : A -> bool) (l : list A) :
  Forall (fun a => p a = false) l -> filter p l = [].
Proof. induction 1 as [|a l Ha _ IH]; simpl; [reflexivity|]. now rewrite Ha. Qed.

Lemma outside_month (day visibleMonth : Date) :
  valid day ->
  dayNumber day < dayNumber (startOfMonth visibleMonth)
  \/ dayNumber (endOfMonth visibleMonth) < dayNumber day ->
  inCurrentMonth day visibleMonth = false.
Proof.
  intros Hv Hout. unfold inCurrentMonth.
  destruct (isSameMonth day visibleMonth) eqn:E; [|reflexivity].
  apply isSameMonth_true in E. destruct E as [Hy Hm].
  pose proof (dayNumber_in_month day visibleMonth Hv Hy Hm). lia.
Qed.

(** X18: the cells of the grid that belong to the visible month are the
    days of the month in order; the first of the month stands at the
    position of its weekday, and every cell before it belongs to another
    month. *)
Theorem monthInterval_current_month_cells (visibleMonth : Date) :
  valid visibleMonth ->
  let grid := monthInterval visibleMonth in
  let som := startOfMonth visibleMonth in
  filter (fun day => inCurrentMonth day visibleMonth) grid
  = daysFrom som (Z.to_nat (getDaysInMonth (year visibleMonth) (month visibleMonth)))
  /\ nth_error grid (Z.to_nat (getDay som)) = Some som
  /\ (forall i day, nth_error grid i = Some day ->
        (i < Z.to_nat (getDay som))%nat -> inCurrentMonth day visibleMonth = false).
Proof.
  intros Hvalid grid som.
  destruct (monthInterval_parts visibleMonth Hvalid) as [Hparts [Hlead [Hmid Htrail]]].
  fold som in Hparts, Hlead, Hmid, Htrail. fold grid in Hparts.
  pose proof (getDaysInMonth_bounds (year visibleMonth) (month visibleMonth)) as Hdim.
  set (leading := daysFrom (startOfWeek som 0) (Z.to_nat (getDay som))) in *.
  set (trailing := daysFrom (nextDay (endOfMonth visibleMonth))
                            (Z.to_nat (6 - getDay (endOfMonth visibleMonth)))) in *.
  assert (Hleading : Forall (fun day => inCurrentMonth day visibleMonth = false) leading).
  { revert Hlead. apply Forall_impl. intros day [Hv Hlt]. apply outside_month; auto. }
  assert (Hlen : List.length leading = Z.to_nat (getDay som)) by apply daysFrom_length.
  split; [|split].
  - rewrite Hparts, !filter_app.
    rewrite (filter_none _ leading Hleading).
    rewrite (filter_none _ trailing).
    + rewrite app_nil_r. simpl. apply filter_all.
      revert Hmid. apply Forall_impl. intros day Hd. now apply isSameMonth_true.
    + revert Htrail. apply Forall_impl. intros day [Hv Hlt]. apply outside_month; auto.
  - rewrite Hparts, nth_error_app2 by lia. rewrite Hlen, Nat.sub_diag.
    destruct (Z.to_nat (getDaysInMonth (year visibleMonth) (month visibleMonth))) eqn:E;
      [lia | reflexivity].
  - intros i day Hi Hlt. rewrite Hparts, nth_error_app1 in Hi by lia.
    apply nth_error_In in Hi. revert day Hi. now apply Forall_forall.
Qed.

Lemma monthInterval_daysFrom (visibleMonth : Date) :
  valid visibleMonth ->
  let start := startOfWeek (startOfMonth visibleMonth) 0 in
  exists weeks : nat,
    (4 <= weeks <= 6)%nat
    /\ monthInterval visibleMonth = daysFrom start (7 * weeks)
    /\ valid start /\ getDay start = 0.
Proof.
  intros Hvalid start.
  pose proof (startOfMonth_valid _ Hvalid) as Hsom.
  pose proof (endOfMonth_valid _ Hvalid) as Heom.
  destruct (startOfWeek_spec _ Hsom) as [Hstart [Hstart_n _]].
  destruct (endOfWeek_spec _ Heom) as [_ Hfinish_n].
  pose proof (endOfMonth_dayNumber visibleMonth) as Hspan.
  pose proof (getDaysInMonth_bounds (year visibleMonth) (month visibleMonth)) as Hdim.
  fold start in Hstart, Hstart_n.
  set (span := dayNumber (endOfWeek (endOfMonth visibleMonth) 0) - dayNumber start + 1).
  assert (Hspan7 : span = 7 * (span / 7) /\ 4 <= span / 7 <= 6 /\ getDay start = 0).
  { unfold span. rewrite Hfinish_n, Hstart_n. unfold getDay in *.
    rewrite Hstart_n. Z.to_euclidean_division_equations. lia. }
  destruct Hspan7 as [H7 [Hweeks Hsunday]].
  exists (Z.to_nat (span / 7)). split; [lia|]. split; [|split; assumption].
  unfold monthInterval, eachDayOfInterval. fold start. fold span.
  f_equal. lia.
Qed.

(** X19: the grid is four, five or six whole weeks long. *)
Theorem monthInterval_weeks (visibleMonth : Date) :
  valid visibleMonth ->
  exists weeks : nat,
    (4 <= weeks <= 6)%nat
    /\ List.length (monthInterval visibleMonth) = (7 * weeks)%nat.
Proof.
  intros Hvalid.
  destruct (monthInterval_daysFrom visibleMonth Hvalid) as [weeks [Hw [Hgrid _]]].
  exists weeks. split; [exact Hw|]. rewrite Hgrid. apply daysFrom_length.
Qed.

Lemma getDay_unfold (d : Date) : getDay d = (dayNumber d + 1) mod 7.
Proof. reflexivity. Qed.

Lemma weekday_of_offset (s : Z) (i : nat) :
  (s + 1) mod 7 = 0 -> (s + Z.of_nat i + 1) mod 7 = Z.of_nat (i mod 7).
Proof.
  intros Hs. rewrite Nat2Z.inj_mod. Z.to_euclidean_division_equations. lia.
Qed.

(** X20: every cell of the grid is a valid date standing in the column of
    its own weekday: the cell at position i falls on weekday i mod 7, the
    header [weekdays] starting on Sunday. *)
Theorem monthInterval_weekdays (visibleMonth : Date) (i : nat) (day : Date) :
  valid visibleMonth ->
  nth_error (monthInterval visibleMonth) i = Some day ->
  valid day
  /\ getDay day = Z.of_nat (i mod 7)
  /\ nth_error weekdays (Z.to_nat (getDay day)) = nth_error weekdays (i mod 7).
Proof.
  intros Hvalid Hday.
  destruct (monthInterval_daysFrom visibleMonth Hvalid)
    as [weeks [_ [Hgrid [Hstart Hsunday]]]].
  rewrite Hgrid in Hday.
  assert (Hi : (i < 7 * weeks)%nat).
  { rewrite <- (daysFrom_length (startOfWeek (startOfMonth visibleMonth) 0) (7 * weeks)).
    apply nth_error_Some. congruence. }
  rewrite daysFrom_nth_error in Hday by assumption. injection Hday as <-.
  destruct (iter_nextDay_spec i _ Hstart) as [Hv Hn].
  assert (Hwd : getDay (Nat.iter i nextDay (startOfWeek (startOfMonth visibleMonth) 0))
                = Z.of_nat (i mod 7)).
  { rewrite getDay_unfold in Hsunday |- *. rewrite Hn. now apply weekday_of_offset. }
  split; [exact Hv|]. split; [exact Hwd|]. rewrite Hwd, Nat2Z.id. reflexivity.
Qed.

Lemma isSameDay_true (a : option Date) (b : Date) : isSameDay a b = true <-> a = Some b.
Proof.
  unfold isSameDay. destruct a as [d|]; [|split; discriminate].
  destruct (Date_eq_dec d b) as [-> | Hne]; split; try reflexivity; try discriminate.
  intros [= E]. contradiction.
Qed.

Lemma month_day_in_grid (visibleMonth d : Date) :
  valid visibleMonth -> valid d ->
  year d = year visibleMonth -> month d = month visibleMonth ->
  In d (monthInterval visibleMonth).
Proof.
  intros Hvalid [_ Hday] Hy Hm.
  destruct (monthInterval_parts visibleMonth Hvalid) as [Hparts _].
  rewrite Hparts. apply in_or_app. right. apply in_or_app. left.
  apply nth_error_In with (n := Z.to_nat (day d - 1)).
  rewrite Hy, Hm in Hday.
  rewrite daysFrom_nth_error by lia.
  unfold startOfMonth. rewrite iter_nextDay_in_month by lia.
  destruct d as [y m k]; cbn [year month day] in *. rewrite <- Hy, <- Hm.
  replace (1 + Z.of_nat (Z.to_nat (k - 1))) with k by lia. reflexivity.
Qed.

Lemma monthInterval_NoDup (visibleMonth : Date) :
  valid visibleMonth -> NoDup (monthInterval visibleMonth).
Proof.
  intros Hvalid.
  destruct (monthInterval_daysFrom visibleMonth Hvalid) as [weeks [_ [Hgrid [Hstart _]]]].
  rewrite Hgrid. now apply daysFrom_NoDup.
Qed.

Section DayBinder.

Context {num : Type}.

Variable parseISO : string -> option Date.

(** X21: an event that passes the filter and whose date text reads as a
    day of the visible month is shown in the cell of that day, that day is
    in the grid once, and no other cell shows the event. *)
Theorem event_shown_in_one_cell (visibleMonth : Date) (events : list (EnergyEvent num))
  (activeFilter : option EnergyType) (event : EnergyEvent num) (d : Date) :
  valid visibleMonth ->
  In event (filteredEvents events activeFilter) ->
  parseISO (date event) = Some d ->
  valid d -> year d = year visibleMonth -> month d = month visibleMonth ->
  let shown := filteredEvents events activeFilter in
  count_occ Date_eq_dec (monthInterval visibleMonth) d = 1%nat
  /\ In event (dayEvents parseISO shown d)
  /\ (forall day, In event (dayEvents parseISO shown day) -> day = d).
Proof.
  intros Hvalid Hin Hparse Hd Hy Hm shown.
  split; [|split].
  - apply NoDup_count_occ'; [now apply monthInterval_NoDup|].
    now apply month_day_in_grid.
  - unfold dayEvents. apply filter_In. split; [exact Hin|].
    apply isSameDay_true. exact Hparse.
  - intros day Hshown. unfold dayEvents in Hshown. apply filter_In in Hshown.
    destruct Hshown as [_ Hsame]. apply isSameDay_true in Hsame. congruence.
Qed.

End DayBinder.

End GridExtras.

(** ** The energy field and the score, once more *)

Section EnergyField.

Context {num : Type} `{JSNumber num}.

(** X7: typing the stored energy text again changes nothing; the stored
    text is never longer than what was typed, and a text of digits and full
    stops is stored as typed. *)
Theorem handleChange_energy_idempotent (value : string) (st : State num) :
  let st' := handleChange "energyKwh" value st in
  handleChange "energyKwh" (NewEvent.energyKwh (newEvent st')) st' = st'
  /\ (String.length (NewEvent.energyKwh (newEvent st')) <= String.length value)%nat
  /\ (JsString.allChars numericChar value = true ->
      NewEvent.energyKwh (newEvent st') = value).
Proof.
  intros st'. subst st'.
  assert (E : forall v (s : State num), NewEvent.energyKwh (newEvent (handleChange "energyKwh" v s))
                          = JsString.replaceNonNumeric v).
  { intros v s. unfold handleChange; simpl. rewrite updateDraft_energyKwh. reflexivity. }
  rewrite E. split; [|split].
  - unfold handleChange; simpl. destruct (newEvent st); simpl.
    now rewrite replaceNonNumeric_idempotent.
  - apply replaceNonNumeric_length.
  - apply replaceNonNumeric_fixpoint.
Qed.

End EnergyField.

(** ** The score along the energy axis *)

Section ScoreShape.

Import Binary64.

Local Open Scope Q_scope.

(** X22: on doubles, from 0 up to 500 the derived score never rises with
    the energy; at 500 it is 40, and for every energy above 500, Infinity
    included, it is 80. *)
Theorem score_falls_then_jumps :
  (forall q1 q2 : Q,
      0 < q1 -> q1 <= q2 -> q2 <= 500 ->
      exists z1 z2 : Z,
        derivedEfficiencyScore (Double (Finite q1)) = Double (Finite (inject_Z z1))
        /\ derivedEfficiencyScore (Double (Finite q2)) = Double (Finite (inject_Z z2))
        /\ (z2 <= z1)%Z)
  /\ derivedEfficiencyScore (int 500 : double) = int 40
  /\ (forall e : double, num_lt (int 500) e = true -> derivedEfficiencyScore e = int 80).
Proof.
  split; [|split; [vm_compute; reflexivity|]].
  - intros q1 q2 H1 H12 H2.
    destruct (score_low q1 H1 ltac:(lra)) as [z1 [Hz1 [_ [Hv1 _]]]].
    destruct (score_low q2 ltac:(lra) H2) as [z2 [Hz2 [_ [Hv2 _]]]].
    exists z1, z2. split; [exact Hz1|]. split; [exact Hz2|].
    rewrite Hv1, Hv2. apply Qfloor_resp_le.
    assert (Hdiv : 0 < q1 / 10 /\ q1 / 10 <= q2 / 10 /\ q2 / 10 <= 50).
    { unfold Qdiv. change (/ 10) with (1 # 10). repeat split; lra. }
    destruct Hdiv as [Hd0 [Hd12 Hd50]].
    pose proof (nearestValue_mono (q1 / 10) (q2 / 10) Hd0 Hd12) as Hmono.
    pose proof (nearestValue_integer_le (q2 / 10) 50 ltac:(lra) Hd50 ltac:(lia)) as Hle.
    change (inject_Z 50) with 50 in Hle.
    pose proof (nearestValue_mono (90 - nearestValue (q2 / 10)) (90 - nearestValue (q1 / 10))
                  ltac:(lra) ltac:(lra)).
    lra.
  - intros e He. destruct (score_high e He) as [H80 _]. rewrite H80.
    symmetry. apply int_double. simpl. tauto.
Qed.

End ScoreShape.

(** ** Energies that overflow *)

Lemma isEmpty_append (a : string) (c : ascii) (r : string) :
  JsString.isEmpty (a ++ String c r) = false.
Proof. destruct a; reflexivity. Qed.

Lemma format_yyyy_MM_dd_nonempty (d : DateFns.Date) :
  JsString.isEmpty (DateFns.format_yyyy_MM_dd d) = false.
Proof. unfold DateFns.format_yyyy_MM_dd. apply isEmpty_append. Qed.

(** A draft with a title, a date and the 310-digit energy is accepted. *)
Lemma accepted_overflowing (st : State double) :
  JsString.isEmpty (JsString.trim (NewEvent.title (newEvent st))) = false ->
  JsString.isEmpty (NewEvent.date (newEvent st)) = false ->
  NewEvent.energyKwh (newEvent st) = overflowing ->
  accepted st = true.
Proof.
  intros Ht Hd He. unfold accepted, missingField. rewrite Ht, Hd, He.
  vm_compute. reflexivity.
Qed.

Lemma replaceNonNumeric_overflowing : JsString.replaceNonNumeric overflowing = overflowing.
Proof. vm_compute. reflexivity. Qed.

(** Choosing a category, then typing a title and the 310-digit energy. *)
Lemma typed_overflowing (option title : string) (ty : EnergyType) (st : State double) :
  decodeType option = Some ty ->
  handleChange "energyKwh" overflowing
    (handleChange "title" title (handleChange "type" option st))
  = mkState (visibleMonth st) (events st) (activeFilter st)
            (NewEvent.mk title ty
                         (NewEvent.date (newEvent st)) (NewEvent.startTime (newEvent st))
                         (NewEvent.endTime (newEvent st)) overflowing
                         (NewEvent.status (newEvent st)) (NewEvent.notes (newEvent st))).
Proof.
  intros Hty. unfold handleChange. cbn [newEvent visibleMonth events activeFilter].
  f_equal. destruct (newEvent st) as [t0 ty0 d s e k status0 n].
  unfold updateDraft.
  change ("type" =? "energyKwh") with false. change ("type" =? "title") with false.
  change ("type" =? "type") with true. cbv iota. rewrite Hty.
  change ("title" =? "energyKwh") with false. change ("title" =? "title") with true.
  cbv iota.
  change ("energyKwh" =? "energyKwh") with true. change ("energyKwh" =? "title") with false.
  change ("energyKwh" =? "type") with false. change ("energyKwh" =? "date") with false.
  change ("energyKwh" =? "startTime") with false.
  change ("energyKwh" =? "endTime") with false.
  cbv iota. now rewrite replaceNonNumeric_overflowing.
Qed.

Lemma overflowRun_events (today : DateFns.Date) (first second : Z) :
  let draft ty title :=
    NewEvent.mk title ty (DateFns.format_yyyy_MM_dd today) "08:00" "09:00"
                overflowing Scheduled "" in
  run (overflowRun first second) (initialState today)
  = mkState (DateFns.startOfMonth today)
            (initialEvents today
             ++ [createdEvent first (draft Production "Array") (Double Infinity)]
             ++ [createdEvent second (draft Demand "Load") (Double Infinity)])
            None
            (resetDraft (draft Demand "Load")).
Proof.
  intros draft.
  assert (Hinf : (Number overflowing : double) = Double Infinity) by (vm_compute; reflexivity).
  unfold overflowRun, run. cbn [fold_left step].
  rewrite (typed_overflowing "Production" "Array" Production) by reflexivity.
  cbn [initialState newEvent visibleMonth events activeFilter
       NewEvent.date NewEvent.startTime NewEvent.endTime NewEvent.status NewEvent.notes].
  fold (draft Production "Array").
  rewrite (handleCreateEvent_accepted first)
    by (apply accepted_overflowing;
        [reflexivity | apply format_yyyy_MM_dd_nonempty | reflexivity]).
  cbn [newEvent visibleMonth events activeFilter].
  change (NewEvent.energyKwh (draft Production "Array")) with overflowing. rewrite Hinf.
  rewrite (typed_overflowing "Demand" "Load" Demand) by reflexivity.
  cbn [resetDraft newEvent visibleMonth events activeFilter
       NewEvent.date NewEvent.startTime NewEvent.endTime NewEvent.status NewEvent.notes
       NewEvent.type draft].
  fold (draft Demand "Load").
  rewrite (handleCreateEvent_accepted second)
    by (apply accepted_overflowing;
        [reflexivity | apply format_yyyy_MM_dd_nonempty | reflexivity]).
  cbn [newEvent visibleMonth events activeFilter].
  change (NewEvent.energyKwh (draft Demand "Load")) with overflowing. rewrite Hinf.
  now rewrite <- app_assoc.
Qed.

(** X10: the sign in the header and the balance advisory can disagree in a
    state the form reaches.  Whatever the current date, after two accepted
    submissions of a 310-digit energy, one of production and one of
    demand, both totals are Infinity and netBalance is NaN: the header
    shows "-" while the advisory is "Positive Net Balance". *)
Theorem reachable_header_disagrees (today : DateFns.Date) (first second : Z) :
  let st := run (overflowRun first second) (initialState today) : State double in
  let s := summary (events st) (visibleMonth st) in
  List.length (events st) = 9%nat
  /\ MonthSummary.totalProduction s = Double Infinity
  /\ MonthSummary.totalConsumption s = Double Infinity
  /\ MonthSummary.netBalance s = Double NaN
  /\ netBalanceSign s = "-"
  /\ countTitled "Positive Net Balance" (recommendations s (events st)) = 1%nat.
Proof.
  intros st s.
  assert (Hst : st = _) by apply overflowRun_events.
  cbv zeta in Hst. subst s. rewrite positive_advisory. unfold netBalanceSign, netBalanceSurplus.
  rewrite Hst. cbn [events visibleMonth].
  set (e1 := createdEvent first _ _). set (e2 := createdEvent second _ _).
  assert (Hsel : monthEvents (initialEvents today ++ [e1] ++ [e2]) (DateFns.startOfMonth today)
                 = initialEvents today ++ [e1] ++ [e2]).
  { rewrite !monthEvents_app, monthEvents_initialEvents.
    unfold monthEvents. cbn [filter e1 e2 date createdEvent NewEvent.date].
    unfold JsString.startsWith, DateFns.format_yyyy_MM_dd.
    replace (DateFns.format_yyyy_MM (DateFns.startOfMonth today))
      with (DateFns.format_yyyy_MM today) by reflexivity.
    rewrite prefix_append. reflexivity. }
  unfold summary. rewrite Hsel.
  cbn [MonthSummary.netBalance MonthSummary.totalProduction MonthSummary.totalConsumption].
  unfold initialEvents, e1, e2.
  repeat split; vm_compute; reflexivity.
Qed.

(** ** The further properties on the sample states *)

(** The initial draft has no title: the button is disabled and a submission
    changes nothing. *)
Lemma submitDisabled_refused_seeded :
  submitDisabled (newEvent seeded) = true
  /\ handleCreateEvent clock seeded = seeded.
Proof.
  split; [reflexivity|].
  apply (submitDisabled_refused clock seeded). reflexivity.
Defined.

Lemma createdEvent_notes_sample :
  notes (createdEvent clock (newEvent (drafted "Load test" "100")) (Number "100")) = None.
Proof.
  apply (proj1 (createdEvent_notes clock (newEvent (drafted "Load test" "100")) (Number "100"))).
  reflexivity.
Defined.

Lemma header_agrees_with_advisory_seeded :
  Exact.isNaN (MonthSummary.netBalance (summary (events seeded) (visibleMonth seeded))) = false
  /\ netBalanceSign (summary (events seeded) (visibleMonth seeded)) = "+"
  /\ countTitled "Positive Net Balance"
       (recommendations (summary (events seeded) (visibleMonth seeded)) (events seeded))
     = 1%nat.
Proof.
  split; [reflexivity|]. split; [reflexivity|].
  apply (proj1 (header_agrees_with_advisory
                  (summary (events seeded) (visibleMonth seeded)) (events seeded))).
  - reflexivity.
  - reflexivity.
Defined.

(** An event dated in April does not change the summary of March. *)
Lemma summary_ignores_other_months_sample :
  JsString.startsWith (date (lateLoad (DateFns.mkDate 2025 4 20)))
                      (DateFns.format_yyyy_MM (visibleMonth seeded)) = false
  /\ summary (events seeded ++ [lateLoad (DateFns.mkDate 2025 4 20)]) (visibleMonth seeded)
     = summary (events seeded) (visibleMonth seeded).
Proof.
  split; [reflexivity|].
  apply (summary_ignores_other_months (events seeded) (lateLoad (DateFns.mkDate 2025 4 20))
                                      (visibleMonth seeded)).
  reflexivity.
Defined.

(** An event dated in March is the eighth of the month and the fourth
    completed one. *)
Lemma summary_counts_new_event_sample :
  JsString.startsWith (date (lateLoad today))
                      (DateFns.format_yyyy_MM (visibleMonth seeded)) = true
  /\ MonthSummary.totalEvents (summary (events seeded ++ [lateLoad today]) (visibleMonth seeded))
     = 8%nat
  /\ MonthSummary.completedCount
       (summary (events seeded ++ [lateLoad today]) (visibleMonth seeded)) = 4%nat.
Proof.
  split; [reflexivity|].
  destruct (summary_counts_new_event (events seeded) (lateLoad today) (visibleMonth seeded)
                                     eq_refl) as [Htotal [Hcompleted _]].
  split; [exact (eq_trans Htotal eq_refl) | exact (eq_trans Hcompleted eq_refl)].
Defined.

Lemma default_date_lands_in_visible_month_sample :
  accepted (run (typing [("title", "Load test"); ("energyKwh", "120 kWh")]) seeded) = true
  /\ MonthSummary.totalEvents
       (summary
          (events (handleCreateEvent clock
                     (run (typing [("title", "Load test"); ("energyKwh", "120 kWh")]) seeded)))
          (visibleMonth seeded))
     = 8%nat.
Proof.
  split; [reflexivity|].
  apply (default_date_lands_in_visible_month
           today [("title", "Load test"); ("energyKwh", "120 kWh")] clock).
  - repeat constructor; simpl; discriminate.
  - reflexivity.
Defined.

Lemma today_valid : DateFns.valid today.
Proof. unfold DateFns.valid, DateFns.getDaysInMonth, today; simpl; lia. Qed.

(** March 2025: the first is a Saturday, at position 6 of the grid. *)
Lemma monthInterval_current_month_cells_march_2025 :
  DateFns.valid today
  /\ nth_error (monthInterval today) 6 = Some (DateFns.mkDate 2025 3 1)
  /\ List.length (filter (fun day => inCurrentMonth day today) (monthInterval today))
     = 31%nat.
Proof.
  split; [exact today_valid|].
  destruct (monthInterval_current_month_cells today today_valid) as [Hcells [Hfirst _]].
  split; [exact Hfirst|].
  rewrite Hcells. reflexivity.
Defined.

Lemma monthInterval_weeks_march_2025 :
  DateFns.valid today
  /\ exists weeks : nat,
       (4 <= weeks <= 6)%nat /\ List.length (monthInterval today) = (7 * weeks)%nat.
Proof.
  split; [exact today_valid|].
  exact (monthInterval_weeks today today_valid).
Defined.

(** The cell at position 16 of March 2025 is Tuesday 11 March. *)
Lemma monthInterval_weekdays_march_2025 :
  DateFns.valid today
  /\ nth_error (monthInterval today) 16 = Some (DateFns.mkDate 2025 3 11)
  /\ DateFns.getDay (DateFns.mkDate 2025 3 11) = 2%Z
  /\ nth_error weekdays (Z.to_nat (DateFns.getDay (DateFns.mkDate 2025 3 11))) = Some "Tue".
Proof.
  split; [exact today_valid|]. split; [reflexivity|].
  destruct (monthInterval_weekdays today 16 (DateFns.mkDate 2025 3 11) today_valid eq_refl)
    as [_ [Hday Hcolumn]].
  split; [exact Hday | exact Hcolumn].
Defined.

(** The first seed record, dated 2025-03-05, is shown in the cell of
    5 March and in no other. *)
Lemma event_shown_in_one_cell_seeded :
  readFixedDate (date (hd (lateLoad today) (events seeded))) = Some (DateFns.mkDate 2025 3 5)
  /\ count_occ DateFns.Date_eq_dec (monthInterval (visibleMonth seeded))
               (DateFns.mkDate 2025 3 5) = 1%nat
  /\ In (hd (lateLoad today) (events seeded))
        (dayEvents readFixedDate (filteredEvents (events seeded) None)
                   (DateFns.mkDate 2025 3 5)).
Proof.
  split; [reflexivity|].
  assert (Hmonth : DateFns.valid (visibleMonth seeded))
    by (unfold DateFns.valid, DateFns.getDaysInMonth; simpl; lia).
  assert (Hday : DateFns.valid (DateFns.mkDate 2025 3 5))
    by (unfold DateFns.valid, DateFns.getDaysInMonth; simpl; lia).
  destruct (event_shown_in_one_cell readFixedDate (visibleMonth seeded) (events seeded) None
              (hd (lateLoad today) (events seeded)) (DateFns.mkDate 2025 3 5)
              Hmonth (or_introl eq_refl) eq_refl Hday eq_refl eq_refl)
    as [Hcount [Hshown _]].
  split; [exact Hcount | exact Hshown].
Defined.
